(** * DRTP: a reliable transport protocol over UDP (application.py)

    A shallow embedding of the protocol engine of [application.py]: the
    packet codec ([create_packet], [parse_packet], [is_flag_set]), the
    receiver loop of [run_server] and the sender of [run_client] with its
    nested routines [send_window] and [retransmit_packets].

    Python integers are unbounded, so they are [Z]; [bytes] objects are
    lists of [Byte.byte]; the sender's [window] is a Python [set] of integers,
    here a [gset Z].  Exceptions that the program does not catch
    ([struct.error] from the codec, [KeyError] from [set.remove]) are results
    of an error monad that also threads the local variables of the running
    engine and the log of datagrams handed to [sock.sendto].  A call of
    [sock.recvfrom] is an input event: either the buffer it returned or
    [socket.timeout]. *)

From Stdlib Require Import ZArith List Lia Bool.
From Stdlib Require Strings.Byte.
From stdpp Require Import base tactics option list list_numbers gmap.

Local Open Scope Z_scope.

(** ** Constants (lines 9-17) *)

Definition HEADER_SIZE : Z := 6.
Definition MAX_DATA_SIZE : Z := 994.
Definition PACKET_SIZE : Z := HEADER_SIZE + MAX_DATA_SIZE.

Definition SYN_FLAG : Z := Z.shiftl 1 0.
Definition ACK_FLAG : Z := Z.shiftl 1 1.
Definition FIN_FLAG : Z := Z.shiftl 1 2.

(** ** Bytes, slices and exceptions *)

Abbreviation bytes := (list Byte.byte).

Definition Z_of_byte (b : Byte.byte) : Z := Z.of_N (Byte.to_N b).

Definition byte_of_Z (z : Z) : Byte.byte :=
  default Byte.x00 (Byte.of_N (Z.to_N (z mod 256))).

(** Python's normalisation of one slice bound against a length: a negative
    bound counts from the end, and both are clamped to [0, len]. *)
Definition slice_bound (len i : Z) : Z :=
  if i <? 0 then Z.max (len + i) 0 else Z.min i len.

(** [l[lo:hi]] *)
Definition py_slice {A} (l : list A) (lo hi : Z) : list A :=
  let len := Z.of_nat (length l) in
  let a := slice_bound len lo in
  let b := slice_bound len hi in
  take (Z.to_nat (b - a)) (drop (Z.to_nat a) l).

(** [l[lo:]] *)
Definition py_slice_from {A} (l : list A) (lo : Z) : list A :=
  py_slice l lo (Z.of_nat (length l)).

Inductive exn : Set :=
| struct_error   (* struct.error: pack out of range, unpack of a wrong size *)
| KeyError.      (* set.remove of an absent element *)

Inductive result (A : Type) : Type :=
| Ok (a : A)
| Raise (e : exn).
Arguments Ok {A} a.
Arguments Raise {A} e.

#[global] Instance result_ret : MRet result := λ A a, Ok a.
#[global] Instance result_bind : MBind result := λ A B k m,
  match m with
  | Ok a => k a
  | Raise e => Raise e
  end.

(** ** Packet codec (lines 42-65) *)

(** [struct.pack('!H', x)]: two bytes, most significant first;
    [struct.error] unless [0 <= x <= 65535]. *)
Definition pack_H (x : Z) : result bytes :=
  if (0 <=? x) && (x <=? 65535)
  then Ok [byte_of_Z (x / 256); byte_of_Z (x mod 256)]
  else Raise struct_error.

Definition pack_HHH (a b c : Z) : result bytes :=
  ha ← pack_H a; hb ← pack_H b; hc ← pack_H c; Ok (ha ++ hb ++ hc).

(** [struct.unpack('!HHH', header)]: the buffer must hold exactly 6 bytes. *)
Definition unpack_HHH (header : bytes) : result (Z * Z * Z) :=
  match header with
  | [a1; a0; b1; b0; c1; c0] =>
      Ok (256 * Z_of_byte a1 + Z_of_byte a0,
          256 * Z_of_byte b1 + Z_of_byte b0,
          256 * Z_of_byte c1 + Z_of_byte c0)
  | _ => Raise struct_error
  end.

Definition create_packet (seq ack_num flags : Z) (data : bytes) : result bytes :=
  header ← pack_HHH seq ack_num flags;
  Ok (header ++ data).

Definition parse_packet (packet : bytes) : result (Z * Z * Z * bytes) :=
  let header := py_slice packet 0 HEADER_SIZE in
  '(seq, ack_num, flags) ← unpack_HHH header;
  let data := py_slice_from packet HEADER_SIZE in
  Ok (seq, ack_num, flags, data).

Definition is_flag_set (flags flag : Z) : bool :=
  negb (Z.land flags flag =? 0).

(** ** The engine monad

    [M St A]: a computation over the local variables [St] of one engine that
    returns an [A] or raises; the state at the raise is kept, so that what
    was sent before an exception stays in the log. *)

Definition M (St A : Type) : Type := St → result A * St.

#[global] Instance M_ret {St} : MRet (M St) := λ A a s, (Ok a, s).
#[global] Instance M_bind {St} : MBind (M St) := λ A B k m s,
  match m s with
  | (Ok a, s') => k a s'
  | (Raise e, s') => (Raise e, s')
  end.

Definition lift {St A} (r : result A) : M St A := λ s, (r, s).
Definition gets {St A} (f : St → A) : M St A := λ s, (Ok (f s), s).
Definition modify {St} (f : St → St) : M St () := λ s, (Ok (), f s).

(** [while cond: body], unrolled at most [fuel] times. *)
Fixpoint while {St} (fuel : nat) (cond : St → bool) (body : M St ()) : M St () :=
  match fuel with
  | O => mret ()
  | S fuel' => λ s,
      if cond s then (body ;; while fuel' cond body) s else (Ok (), s)
  end.

(** [for x in xs: body x] *)
Fixpoint for_each {St A} (xs : list A) (body : A → M St ()) : M St () :=
  match xs with
  | [] => mret ()
  | x :: xs' => body x ;; for_each xs' body
  end.

(** What one call of [sock.recvfrom(PACKET_SIZE)] yields: the buffer of a
    datagram, or [socket.timeout]. *)
Inductive event : Type :=
| Datagram (packet : bytes)
| Timeout.

(** ** Receiver engine: [run_server] (lines 140-206) *)

Module Server.

(** The local variables of [run_server] and the log of [sock.sendto].
    [discard_seq] is an integer or [float('inf')], which no sequence
    number equals: [None] stands for it.  [start_time] is a clock reading
    ([time.time()], abstracted to an integer number of ticks).  Console
    output, the throughput report and the write of [file_data] in the
    [finally] block are left out, and so is [KeyboardInterrupt]. *)
Record state : Type := State {
  file_data : bytes;
  expected_seq : Z;
  discard_seq : option Z;
  start_time : option Z;
  sent : list bytes
}.

Definition init (discard : option Z) : state :=
  {| file_data := []; expected_seq := 1; discard_seq := discard;
     start_time := None; sent := [] |}.

Definition sendto (packet : bytes) : M state () :=
  modify (λ s, State (file_data s) (expected_seq s) (discard_seq s)
                     (start_time s) (sent s ++ [packet])).

(** [if start_time is None: start_time = time.time()] *)
Definition start_timer (now : Z) (s : state) : state :=
  match start_time s with
  | None => State (file_data s) (expected_seq s) (discard_seq s) (Some now) (sent s)
  | Some _ => s
  end.

Definition clear_discard (s : state) : state :=
  State (file_data s) (expected_seq s) None (start_time s) (sent s).

Definition append_data (data : bytes) (s : state) : state :=
  State (file_data s ++ data) (expected_seq s) (discard_seq s) (start_time s) (sent s).

Definition incr_expected (s : state) : state :=
  State (file_data s) (expected_seq s + 1) (discard_seq s) (start_time s) (sent s).

(** One turn of the [while True] loop, lines 152-194, on the outcome of
    its [recvfrom]; [now] is the clock at that moment.  The result is
    [true] on [break].  Only [socket.timeout] is caught, so a
    [struct.error] leaves the loop. *)
Definition server_step (now : Z) (ev : event) : M state bool :=
  match ev with
  | Timeout => mret false
  | Datagram packet =>
      '(seq, ack_num, flags, data) ← lift (parse_packet packet);
      modify (start_timer now);;
      if is_flag_set flags SYN_FLAG then
        syn_ack_packet ← lift (create_packet 0 0 (Z.lor SYN_FLAG ACK_FLAG) []);
        sendto syn_ack_packet;;
        mret false
      else if is_flag_set flags ACK_FLAG then
        mret false
      else if is_flag_set flags FIN_FLAG then
        fin_ack_packet ← lift (create_packet 0 0 (Z.lor FIN_FLAG ACK_FLAG) []);
        sendto fin_ack_packet;;
        mret true
      else
        discard ← gets discard_seq;
        if bool_decide (discard = Some seq) then
          modify clear_discard;;
          mret false
        else
          expected ← gets expected_seq;
          if seq =? expected then
            modify (append_data data);;
            ack_packet ← lift (create_packet 0 seq ACK_FLAG []);
            sendto ack_packet;;
            modify incr_expected;;
            mret false
          else
            mret false
  end.

(** The loop over the [recvfrom] outcomes [evs], each with the clock
    reading at its arrival; [true] when the loop was left by [break].
    (The [finally] block then writes [file_data] to the output file.) *)
Fixpoint serve (evs : list (Z * event)) : M state bool :=
  match evs with
  | [] => mret false
  | (now, ev) :: evs' =>
      stop ← server_step now ev;
      if stop : bool then mret true else serve evs'
  end.

Definition run_server (discard : option Z) (evs : list (Z * event))
  : result bool * state :=
  serve evs (init discard).

End Server.

(** ** Sender engine: [run_client] (lines 214-338) *)

Module Client.

(** The variables shared by [run_client] and its nested routines, and the
    log of [sock.sendto]. *)
Record state : Type := State {
  base : Z;
  next_seq : Z;
  window : gset Z;
  sent : list bytes
}.

(** Where the sender is blocked or has ended: in the [recvfrom] of the
    handshake (line 276), of the wait loop (line 298), of the teardown
    (line 323); or after "Connection Closes"; or after "Connection failed"
    and [exit()]. *)
Inductive phase : Set :=
| Handshake
| Wait
| Teardown
| Closed
| Failed.

Definition terminal (ph : phase) : bool :=
  match ph with
  | Closed | Failed => true
  | _ => false
  end.

Definition send_packet (packet : bytes) : M state () :=
  modify (λ s, State (base s) (next_seq s) (window s) (sent s ++ [packet])).

(** [window.add(next_seq); next_seq += 1] *)
Definition add_next (s : state) : state :=
  State (base s) (next_seq s + 1) ({[next_seq s]} ∪ window s) (sent s).

(** [window.remove(base)]: [KeyError] when [base] is not in the set. *)
Definition window_remove_base : M state () := λ s,
  if bool_decide (base s ∈ window s)
  then (Ok (), State (base s) (next_seq s) (window s ∖ {[base s]}) (sent s))
  else (Raise KeyError, s).

Definition incr_base (s : state) : state :=
  State (base s + 1) (next_seq s) (window s) (sent s).

Section run_client.

Variable file_data : bytes.
Variable window_size : Z.

Definition total_packets : Z :=
  (Z.of_nat (length file_data) + MAX_DATA_SIZE - 1) / MAX_DATA_SIZE.

Definition init : state :=
  {| base := 1; next_seq := 1; window := ∅; sent := [] |}.

(** Lines 243-248. *)
Definition retransmit_packets : M state () := λ s,
  for_each (seqZ (base s) (next_seq s - 1 - base s)) (λ seq,
    let data := py_slice file_data ((seq - 1) * MAX_DATA_SIZE) (seq * MAX_DATA_SIZE) in
    packet ← lift (create_packet seq 0 0 data);
    send_packet packet) s.

(** Lines 258-268. *)
Definition send_window_cond (s : state) : bool :=
  (next_seq s <=? base s + window_size) && (next_seq s <=? total_packets).

Definition send_window_body : M state () :=
  n ← gets next_seq;
  (if n - 1 <? 1 then modify add_next else mret ());;
  n ← gets next_seq;
  let data := py_slice file_data ((n - 1) * MAX_DATA_SIZE) (n * MAX_DATA_SIZE) in
  packet ← lift (create_packet (n - 1) 0 0 data);
  send_packet packet;;
  modify add_next.

(** Every turn of the loop increases [next_seq], so
    [total_packets + 1 - next_seq] turns are enough
    (see [send_window_exits]). *)
Definition send_window : M state () := λ s,
  while (Z.to_nat (total_packets + 1 - next_seq s))
        send_window_cond send_window_body s.

(** Lines 303-305: [while base <= ack_num: window.remove(base); base += 1] *)
Definition slide_window (ack_num : Z) : M state () := λ s,
  while (Z.to_nat (ack_num + 1 - base s))
        (λ s, base s <=? ack_num)
        (window_remove_base;; modify incr_base) s.

(** The head of the loop of line 292, up to the next [recvfrom]: a send
    round and the wait loop, or the exit to the teardown (lines
    315-319), which sends FIN. *)
Definition transfer_loop : M state phase :=
  b ← gets base;
  if b <? total_packets then
    send_window;;
    mret Wait
  else
    fin_packet ← lift (create_packet 0 0 FIN_FLAG []);
    send_packet fin_packet;;
    mret Teardown.

(** Lines 271-273. *)
Definition start : M state phase :=
  syn_packet ← lift (create_packet 0 0 SYN_FLAG []);
  send_packet syn_packet;;
  mret Handshake.

(** From one [recvfrom] to the next.  In the wait loop, [Timeout] stands
    for both ways of leaving it: [socket.timeout] (line 308) and the
    elapsed interval in its condition (line 296). *)
Definition client_step (ph : phase) (ev : event) : M state phase :=
  match ph, ev with
  | Handshake, Datagram packet =>
      '(_, _, flags, _) ← lift (parse_packet packet);
      (if is_flag_set flags (Z.lor SYN_FLAG ACK_FLAG) then
         ack_packet ← lift (create_packet 0 0 ACK_FLAG []);
         send_packet ack_packet
       else mret ());;
      transfer_loop
  | Handshake, Timeout => mret Failed
  | Wait, Datagram packet =>
      '(_, ack_num, flags, _) ← lift (parse_packet packet);
      b ← gets base;
      (if is_flag_set flags ACK_FLAG && (b <=? ack_num) then
         slide_window ack_num;;
         send_window
       else mret ());;
      mret Wait
  | Wait, Timeout =>
      retransmit_packets;;
      transfer_loop
  | Teardown, Datagram packet =>
      '(_, _, flags, _) ← lift (parse_packet packet);
      if is_flag_set flags (Z.lor FIN_FLAG ACK_FLAG)
      then mret Closed
      else mret Teardown
  | Teardown, Timeout =>
      fin_packet ← lift (create_packet 0 0 FIN_FLAG []);
      send_packet fin_packet;;
      mret Teardown
  | Closed, _ => mret Closed
  | Failed, _ => mret Failed
  end.

Fixpoint client_steps (ph : phase) (evs : list event) : M state phase :=
  match evs with
  | [] => mret ph
  | ev :: evs' =>
      if terminal ph then mret ph
      else ph' ← client_step ph ev; client_steps ph' evs'
  end.

(** The sender fed with the outcomes [evs] of its [recvfrom] calls. *)
Definition run_client (evs : list event) : result phase * state :=
  (ph ← start; client_steps ph evs) init.

End run_client.

End Client.

(** ** Both engines over a lossless transport

    A transport that loses, duplicates and reorders nothing and is prompt:
    every datagram the sender has handed to [sendto] reaches the receiver,
    in order, before the sender's next [recvfrom] returns; that [recvfrom]
    yields the oldest reply not yet read, or [socket.timeout] when there is
    none. *)

Module Lossless.

Record world : Type := World {
  client_ctl : result Client.phase;   (* where the sender is, or its exception *)
  client : Client.state;
  server_ctl : result bool;           (* [Ok true]: the receiver left its loop *)
  server : Server.state;
  to_server : nat;                    (* datagrams of the sender already delivered *)
  to_client : nat                     (* replies already read by the sender *)
}.

(** The receiver handles the datagrams [packets], while it runs. *)
Fixpoint deliver (packets : list bytes) (ctl : result bool) (s : Server.state)
  : result bool * Server.state :=
  match packets, ctl with
  | packet :: packets', Ok false =>
      let '(ctl', s') := Server.server_step 0 (Datagram packet) s in
      deliver packets' ctl' s'
  | _, _ => (ctl, s)
  end.

Section transfer.

Variable file_data : bytes.
Variable window_size : Z.

Definition step (w : world) : world :=
  let '(sctl, ss) :=
    deliver (drop (to_server w) (Client.sent (client w))) (server_ctl w) (server w) in
  let delivered := length (Client.sent (client w)) in
  match client_ctl w with
  | Ok ph =>
      if Client.terminal ph then
        World (client_ctl w) (client w) sctl ss delivered (to_client w)
      else
        match drop (to_client w) (Server.sent ss) with
        | reply :: _ =>
            let '(cctl, cs) :=
              Client.client_step file_data window_size ph (Datagram reply) (client w) in
            World cctl cs sctl ss delivered (S (to_client w))
        | [] =>
            let '(cctl, cs) :=
              Client.client_step file_data window_size ph Timeout (client w) in
            World cctl cs sctl ss delivered (to_client w)
        end
  | Raise _ =>
      World (client_ctl w) (client w) sctl ss delivered (to_client w)
  end.

Definition init (discard : option Z) : world :=
  let '(cctl, cs) := Client.start (Client.init) in
  World cctl cs (Ok false) (Server.init discard) 0 0.

(** [n] receive calls of the sender. *)
Definition transfer (discard : option Z) (n : nat) : world :=
  Nat.iter n step (init discard).

End transfer.

End Lossless.

(** ** Vocabulary of the properties *)

(** The two bytes of a 16-bit field, most significant first. *)
Definition be16 (x : Z) : bytes := [byte_of_Z (x / 256); byte_of_Z (x mod 256)].

(** The bytes of a packet whose three fields fit 16 bits. *)
Definition wire (s a f : Z) (data : bytes) : bytes :=
  be16 s ++ be16 a ++ be16 f ++ data.

(** A datagram is ordinary data when none of SYN, ACK, FIN is set. *)
Definition data_flags (flags : Z) : Prop :=
  is_flag_set flags SYN_FLAG = false ∧
  is_flag_set flags ACK_FLAG = false ∧
  is_flag_set flags FIN_FLAG = false.

(** The receiver's variables after it accepted [data] under sequence [seq]. *)
Definition accepted (now seq : Z) (data : bytes) (s : Server.state) : Server.state :=
  {| Server.file_data := Server.file_data s ++ data;
     Server.expected_seq := Server.expected_seq s + 1;
     Server.discard_seq := Server.discard_seq s;
     Server.start_time := Server.start_time (Server.start_timer now s);
     Server.sent := Server.sent s ++ [wire 0 seq ACK_FLAG []] |}.

(** [m] keeps the property [I] of the state, also when it raises. *)
Definition preserves {St A} (I : St → Prop) (m : M St A) : Prop :=
  ∀ s, I s → I (m s).2.

(** The window of the code: [window] holds what lies from [base] up to
    [next_seq], and [next_seq] runs at most one past [base + window_size]. *)
Definition window_inv (window_size : Z) (s : Client.state) : Prop :=
  1 ≤ Client.base s ∧
  Client.base s ≤ Client.next_seq s ∧
  Client.next_seq s ≤ Client.base s + window_size + 1 ∧
  ∀ k, k ∈ Client.window s ↔ Client.base s ≤ k < Client.next_seq s.

(** The state after the slide up to [ack_num]. *)
Definition slid (ack_num : Z) (s : Client.state) : Client.state :=
  {| Client.base := ack_num + 1;
     Client.next_seq := Client.next_seq s;
     Client.window :=
       Client.window s ∖ list_to_set (seqZ (Client.base s) (ack_num + 1 - Client.base s));
     Client.sent := Client.sent s |}.

(** The [k]-th chunk of the payload, counting from 1. *)
Definition chunk (file_data : bytes) (k : Z) : bytes :=
  take (Z.to_nat MAX_DATA_SIZE) (drop (Z.to_nat ((k - 1) * MAX_DATA_SIZE)) file_data).

(** A packet of the handshake or of the teardown. *)
Definition control_packet (p : bytes) : Prop :=
  p = wire 0 0 SYN_FLAG [] ∨ p = wire 0 0 ACK_FLAG [] ∨ p = wire 0 0 FIN_FLAG [].

(** The sender that never entered its transfer loop. *)
Definition idle (s : Client.state) : Prop :=
  Client.base s = 1 ∧ Client.next_seq s = 1 ∧ Client.window s = ∅ ∧
  Forall control_packet (Client.sent s).

(** A payload of [n] bytes whose 994-byte chunks differ. *)
Definition sample_payload (n : Z) : bytes := (λ i, byte_of_Z (i mod 251)) <$> seqZ 0 n.

(** The receiver's variables after it answered a control datagram with [p]. *)
Definition replied (now : Z) (p : bytes) (s : Server.state) : Server.state :=
  {| Server.file_data := Server.file_data s;
     Server.expected_seq := Server.expected_seq s;
     Server.discard_seq := Server.discard_seq s;
     Server.start_time := Server.start_time (Server.start_timer now s);
     Server.sent := Server.sent s ++ [p] |}.

(** The acknowledged numbers of the pure ACK packets of a log, in order. *)
Definition ack_numbers (log : list bytes) : list Z :=
  omap (λ p, match parse_packet p with
             | Ok (_, a, f, _) => if f =? ACK_FLAG then Some a else None
             | Raise _ => None
             end) log.

(** The acknowledgments of the receiver so far are 1, 2, ..., up to the
    last accepted sequence number. *)
Definition acks_in_order (s : Server.state) : Prop :=
  1 ≤ Server.expected_seq s ≤ 65536 ∧
  ack_numbers (Server.sent s) = seqZ 1 (Server.expected_seq s - 1).

(** A [recvfrom] outcome whose buffer, if any, has at least [lo] bytes. *)
Definition buffer_at_least (lo : nat) (ev : event) : Prop :=
  match ev with
  | Datagram packet => (lo ≤ length packet)%nat
  | Timeout => True
  end.

(** A [recvfrom] outcome whose buffer, if any, has at most [hi] bytes, as
    [recvfrom(hi)] returns it. *)
Definition buffer_at_most (hi : nat) (ev : event) : Prop :=
  match ev with
  | Datagram packet => (length packet ≤ hi)%nat
  | Timeout => True
  end.

(** What the sender may put on the wire: a control packet, or a data packet
    of a sequence number [k] from 1 to [total_packets - 1] that carries the
    chunk [k + 1] (as [send_window] pairs them) or the chunk [k] (as
    [retransmit_packets] does). *)
Definition sender_packet (file_data : bytes) (p : bytes) : Prop :=
  control_packet p ∨
  ∃ k, 1 ≤ k < Client.total_packets file_data ∧
       (p = wire k 0 0 (chunk file_data (k + 1)) ∨ p = wire k 0 0 (chunk file_data k)).

(** What the sender keeps about its log when there are at least two
    segments. *)
Definition sender_inv (file_data : bytes) (s : Client.state) : Prop :=
  1 ≤ Client.base s ∧
  1 ≤ Client.next_seq s ≤ Client.total_packets file_data + 1 ∧
  Forall (sender_packet file_data) (Client.sent s).

(** The sender has left the transfer loop for the teardown. *)
Definition finishing (ph : Client.phase) : bool :=
  match ph with
  | Client.Teardown | Client.Closed => true
  | _ => false
  end.

(** The sender at [s'] is no further back than at [s]. *)
Definition advanced (s s' : Client.state) : Prop :=
  Client.base s ≤ Client.base s' ∧
  Client.next_seq s ≤ Client.next_seq s' ∧
  Client.sent s `prefix_of` Client.sent s'.

(** The flags of an ordinary data packet, as the receiver tests them. *)
Definition is_data (flags : Z) : bool :=
  negb (is_flag_set flags SYN_FLAG) && negb (is_flag_set flags ACK_FLAG)
  && negb (is_flag_set flags FIN_FLAG).

(** The sequence numbers of the data packets of a log, in the order in
    which they were sent. *)
Definition data_seqs (log : list bytes) : list Z :=
  omap (λ p, match parse_packet p with
             | Ok (sq, _, f, _) => if is_data f then Some sq else None
             | Raise _ => None
             end) log.

(** The window of the code together with what is on the wire: the data
    packets sent so far carry exactly the sequence numbers below
    [next_seq - 1]. *)
Definition transmitted_inv (window_size : Z) (s : Client.state) : Prop :=
  window_inv window_size s ∧
  ∀ k, k ∈ data_seqs (Client.sent s) ↔ 1 ≤ k < Client.next_seq s - 1.

(** * Properties *)

(** Unfolds the operations of the engine monad and runs what has become
    closed. *)
Ltac monad_simpl :=
  unfold mbind, M_bind, mret, M_ret, modify, gets, lift; cbn beta iota.

(** ** Bytes and slices *)

Lemma Z_of_byte_range (b : Byte.byte) : 0 ≤ Z_of_byte b < 256.
Proof.
  unfold Z_of_byte. pose proof (Byte.to_N_bounded b). lia.
Qed.

Lemma Z_of_byte_of_Z (z : Z) : 0 ≤ z < 256 → Z_of_byte (byte_of_Z z) = z.
Proof.
  intros Hz. unfold Z_of_byte, byte_of_Z.
  rewrite Z.mod_small by lia.
  destruct (Byte.of_N (Z.to_N z)) as [b|] eqn:E; simpl.
  - apply Byte.to_of_N in E. rewrite E. lia.
  - apply Byte.of_N_None_iff in E. lia.
Qed.

Lemma byte_of_Z_of_byte (b : Byte.byte) : byte_of_Z (Z_of_byte b) = b.
Proof.
  unfold byte_of_Z. rewrite Z.mod_small by apply Z_of_byte_range.
  unfold Z_of_byte. rewrite N2Z.id, Byte.of_to_N. reflexivity.
Qed.

Lemma py_slice_nonneg {A} (l : list A) (lo hi : Z) :
  0 ≤ lo ≤ hi →
  py_slice l lo hi = take (Z.to_nat (hi - lo)) (drop (Z.to_nat lo) l).
Proof.
  intros H. unfold py_slice, slice_bound.
  destruct (Z.ltb_spec lo 0), (Z.ltb_spec hi 0); try lia.
  destruct (Z.le_gt_cases lo (Z.of_nat (length l))) as [Hlo|Hlo].
  - rewrite (Z.min_l lo) by lia.
    destruct (Z.le_gt_cases hi (Z.of_nat (length l))) as [Hhi|Hhi].
    + rewrite Z.min_l by lia. reflexivity.
    + rewrite Z.min_r by lia.
      rewrite !take_ge; [reflexivity | |]; rewrite length_drop; lia.
  - rewrite !Z.min_r by lia. rewrite Z.sub_diag. simpl.
    rewrite (drop_ge l (Z.to_nat lo)) by lia. by rewrite take_nil.
Qed.

Lemma py_slice_from_nonneg {A} (l : list A) (lo : Z) :
  0 ≤ lo → py_slice_from l lo = drop (Z.to_nat lo) l.
Proof.
  intros H. unfold py_slice_from.
  destruct (Z.le_gt_cases lo (Z.of_nat (length l))) as [Hlo|Hlo].
  - rewrite py_slice_nonneg by lia. apply take_ge. rewrite length_drop. lia.
  - unfold py_slice, slice_bound.
    destruct (Z.ltb_spec lo 0), (Z.ltb_spec (Z.of_nat (length l)) 0); try lia.
    rewrite !Z.min_r, Z.sub_diag by lia. simpl.
    by rewrite (drop_ge l (Z.to_nat lo)) by lia.
Qed.

(** ** Codec *)

Lemma pack_H_ok (x : Z) : 0 ≤ x ≤ 65535 → pack_H x = Ok (be16 x).
Proof.
  intros H. unfold pack_H.
  destruct (Z.leb_spec 0 x), (Z.leb_spec x 65535); try lia. reflexivity.
Qed.

Lemma pack_H_raise (x : Z) : ¬ (0 ≤ x ≤ 65535) → pack_H x = Raise struct_error.
Proof.
  intros H. unfold pack_H.
  destruct (Z.leb_spec 0 x), (Z.leb_spec x 65535); try lia; reflexivity.
Qed.

Lemma be16_value (x : Z) (hi lo : Byte.byte) :
  0 ≤ x ≤ 65535 → be16 x = [hi; lo] → 256 * Z_of_byte hi + Z_of_byte lo = x.
Proof.
  intros H [= <- <-].
  rewrite !Z_of_byte_of_Z.
  - pose proof (Z.div_mod x 256). lia.
  - apply Z.mod_pos_bound. lia.
  - split; [apply Z.div_pos; lia | apply Z.div_lt_upper_bound; lia].
Qed.

Lemma create_packet_ok (s a f : Z) (data : bytes) :
  0 ≤ s ≤ 65535 → 0 ≤ a ≤ 65535 → 0 ≤ f ≤ 65535 →
  create_packet s a f data = Ok (wire s a f data).
Proof.
  intros Hs Ha Hf. unfold create_packet, pack_HHH.
  rewrite !pack_H_ok by assumption. reflexivity.
Qed.

Lemma parse_packet_header (s a f : Z) (data : bytes) :
  0 ≤ s ≤ 65535 → 0 ≤ a ≤ 65535 → 0 ≤ f ≤ 65535 →
  parse_packet (wire s a f data) = Ok (s, a, f, data).
Proof.
  intros Hs Ha Hf. unfold parse_packet, HEADER_SIZE, wire.
  rewrite py_slice_nonneg, py_slice_from_nonneg by lia.
  change (Z.to_nat (6 - 0)) with 6%nat. change (Z.to_nat 0) with 0%nat.
  change (Z.to_nat 6) with 6%nat.
  cbn [be16 app firstn skipn unpack_HHH mbind result_bind].
  rewrite (be16_value s _ _ Hs eq_refl), (be16_value a _ _ Ha eq_refl),
    (be16_value f _ _ Hf eq_refl). reflexivity.
Qed.

Lemma parse_packet_short (packet : bytes) :
  (length packet < 6)%nat → parse_packet packet = Raise struct_error.
Proof.
  intros H. unfold parse_packet, HEADER_SIZE.
  rewrite py_slice_nonneg by lia. simpl.
  do 6 (destruct packet as [|? packet]; [reflexivity|]).
  simpl in H. lia.
Qed.

(** C7: for all 16-bit [s], [a], [f] and every payload (of any length, so
    also of every length from 0 to 994), [create_packet] yields the 6-byte
    big-endian header of the three fields followed by the payload, and
    [parse_packet] maps that packet back to [(s, a, f, payload)]. *)
Theorem parse_create_roundtrip (s a f : Z) (payload : bytes) :
  0 ≤ s ≤ 65535 → 0 ≤ a ≤ 65535 → 0 ≤ f ≤ 65535 →
  create_packet s a f payload = Ok (be16 s ++ be16 a ++ be16 f ++ payload) ∧
  length (be16 s ++ be16 a ++ be16 f) = 6%nat ∧
  (create_packet s a f payload ≫= parse_packet) = Ok (s, a, f, payload).
Proof.
  intros Hs Ha Hf.
  rewrite create_packet_ok by assumption.
  split; [reflexivity|]. split; [reflexivity|].
  cbn [mbind result_bind]. by apply parse_packet_header.
Qed.

Lemma parse_create_roundtrip_witness :
  (create_packet 1 0 0 [Byte.x41; Byte.x42] ≫= parse_packet)
  = Ok (1, 0, 0, [Byte.x41; Byte.x42]).
Proof.
  apply (parse_create_roundtrip 1 0 0 [Byte.x41; Byte.x42]); lia.
Defined.

Lemma is_flag_set_true (flags flag : Z) :
  is_flag_set flags flag = true ↔ Z.land flags flag ≠ 0.
Proof.
  unfold is_flag_set. rewrite negb_true_iff, Z.eqb_neq. reflexivity.
Qed.

Lemma is_flag_set_lor (flags m1 m2 : Z) :
  is_flag_set flags (Z.lor m1 m2) = is_flag_set flags m1 || is_flag_set flags m2.
Proof.
  unfold is_flag_set. rewrite Z.land_lor_distr_r, <- negb_andb. f_equal.
  apply eq_true_iff_eq. rewrite andb_true_iff, !Z.eqb_eq. apply Z.lor_eq_0_iff.
Qed.

(** C10: [is_flag_set flags mask] is true exactly when [flags & mask] is not
    zero.  Hence the tests against [SYN_FLAG | ACK_FLAG] (handshake) and
    [FIN_FLAG | ACK_FLAG] (teardown) succeed as soon as one of the two flags
    is set: a packet with only the ACK flag passes the SYN|ACK test, and the
    sender then answers it with its ACK and closes on it in the teardown. *)
Theorem is_flag_set_combined_mask (flags mask : Z) :
  (is_flag_set flags mask = true ↔ Z.land flags mask ≠ 0) ∧
  is_flag_set flags (Z.lor SYN_FLAG ACK_FLAG)
    = is_flag_set flags SYN_FLAG || is_flag_set flags ACK_FLAG ∧
  is_flag_set flags (Z.lor FIN_FLAG ACK_FLAG)
    = is_flag_set flags FIN_FLAG || is_flag_set flags ACK_FLAG ∧
  is_flag_set ACK_FLAG (Z.lor SYN_FLAG ACK_FLAG) = true ∧
  is_flag_set ACK_FLAG SYN_FLAG = false ∧
  (∀ fd w s, Client.client_step fd w Client.Teardown
               (Datagram (wire 0 0 ACK_FLAG [])) s
             = (Ok Client.Closed, s)) ∧
  (∀ fd w s, Client.client_step fd w Client.Handshake
               (Datagram (wire 0 0 ACK_FLAG [])) s
             = (Client.send_packet (wire 0 0 ACK_FLAG []);;
                Client.transfer_loop fd w) s).
Proof.
  split; [apply is_flag_set_true|].
  split; [apply is_flag_set_lor|].
  split; [apply is_flag_set_lor|].
  repeat split; reflexivity.
Qed.

Lemma flag_values :
  SYN_FLAG = 1 ∧ ACK_FLAG = 2 ∧ FIN_FLAG = 4 ∧
  Z.lor SYN_FLAG ACK_FLAG = 3 ∧ Z.lor FIN_FLAG ACK_FLAG = 6.
Proof. repeat split; reflexivity. Qed.

Lemma ACK_FLAG_range : 0 ≤ ACK_FLAG ≤ 65535.
Proof. change ACK_FLAG with 2. lia. Qed.

Lemma parse_packet_fields (packet : bytes) (s a f : Z) (data : bytes) :
  parse_packet packet = Ok (s, a, f, data) →
  0 ≤ s ≤ 65535 ∧ 0 ≤ a ≤ 65535 ∧ 0 ≤ f ≤ 65535.
Proof.
  unfold parse_packet. destruct (py_slice packet 0 HEADER_SIZE) as [|a1 [|a0 [|b1 [|b0 [|c1 [|c0 [|]]]]]]];
    try discriminate.
  cbn [unpack_HHH mbind result_bind]. intros [= <- <- <- <-].
  pose proof (Z_of_byte_range a1). pose proof (Z_of_byte_range a0).
  pose proof (Z_of_byte_range b1). pose proof (Z_of_byte_range b0).
  pose proof (Z_of_byte_range c1). pose proof (Z_of_byte_range c0). lia.
Qed.

(** ** Receiver *)

Lemma start_timer_fields (now : Z) (s : Server.state) :
  Server.file_data (Server.start_timer now s) = Server.file_data s ∧
  Server.expected_seq (Server.start_timer now s) = Server.expected_seq s ∧
  Server.discard_seq (Server.start_timer now s) = Server.discard_seq s ∧
  Server.sent (Server.start_timer now s) = Server.sent s.
Proof. unfold Server.start_timer. by destruct (Server.start_time s). Qed.

Lemma server_step_data (now : Z) (packet : bytes) (seq ack_num flags : Z)
    (data : bytes) (s : Server.state) :
  parse_packet packet = Ok (seq, ack_num, flags, data) →
  data_flags flags →
  Server.server_step now (Datagram packet) s =
    if bool_decide (Server.discard_seq s = Some seq) then
      (Ok false, Server.clear_discard (Server.start_timer now s))
    else if seq =? Server.expected_seq s then (Ok false, accepted now seq data s)
    else (Ok false, Server.start_timer now s).
Proof.
  intros Hparse (Hsyn & Hack & Hfin).
  pose proof (parse_packet_fields _ _ _ _ _ Hparse) as (Hseq & _ & _).
  destruct (start_timer_fields now s) as (Hfd & Hex & Hdi & Hse).
  unfold Server.server_step. monad_simpl. rewrite Hparse. cbn beta iota.
  rewrite Hsyn, Hack, Hfin. cbn beta iota. rewrite Hdi.
  case_bool_decide; [reflexivity|]. cbn beta iota. rewrite Hex.
  destruct (seq =? Server.expected_seq s); [|reflexivity]. cbn beta iota.
  rewrite create_packet_ok by (apply ACK_FLAG_range || lia).
  unfold Server.sendto, accepted, Server.append_data, Server.incr_expected.
  monad_simpl. cbn [Server.file_data Server.expected_seq Server.discard_seq
                    Server.start_time Server.sent].
  by rewrite Hfd, Hex, Hdi, Hse.
Qed.

(** C5, as the code has it: a data datagram whose sequence is not the pending
    [discard_seq] is accepted if and only if its sequence equals
    [expected_seq].  Accepting appends the payload, sends one ACK packet with
    [ack_number = sequence] and sequence field 0, and adds 1 to
    [expected_seq]; any other sequence sends nothing and leaves [file_data],
    [expected_seq] and [discard_seq] as they were.  In both cases the only
    other change is that the first datagram of a run sets [start_time]. *)
Theorem data_accepted_iff_expected (now : Z) (packet : bytes)
    (seq ack_num flags : Z) (data : bytes) (s : Server.state) :
  parse_packet packet = Ok (seq, ack_num, flags, data) →
  data_flags flags →
  Server.discard_seq s ≠ Some seq →
  (seq = Server.expected_seq s →
     Server.server_step now (Datagram packet) s = (Ok false, accepted now seq data s)) ∧
  (seq ≠ Server.expected_seq s →
     Server.server_step now (Datagram packet) s = (Ok false, Server.start_timer now s)) ∧
  parse_packet (wire 0 seq ACK_FLAG []) = Ok (0, seq, ACK_FLAG, []) ∧
  (Server.server_step now (Datagram packet) s = (Ok false, accepted now seq data s)
     ↔ seq = Server.expected_seq s).
Proof.
  intros Hparse Hdata Hdiscard.
  pose proof (parse_packet_fields _ _ _ _ _ Hparse) as (Hseq & _ & _).
  rewrite (server_step_data _ _ _ _ _ _ _ Hparse Hdata).
  rewrite bool_decide_eq_false_2 by assumption.
  split; [|split; [|split]].
  - intros ->. by rewrite Z.eqb_refl.
  - intros Hne. apply Z.eqb_neq in Hne. by rewrite Hne.
  - apply parse_packet_header; [lia | lia | apply ACK_FLAG_range].
  - destruct (Z.eqb_spec seq (Server.expected_seq s)) as [->|Hne]; [done|].
    split; [|done]. intros [= Heq]. unfold accepted in Heq.
    apply (f_equal Server.expected_seq) in Heq.
    destruct (start_timer_fields now s) as (_ & Hex & _). simpl in Heq. lia.
Qed.

Lemma data_accepted_iff_expected_witness :
  Server.server_step 7 (Datagram (wire 1 0 0 [Byte.x41])) (Server.init None)
  = (Ok false, accepted 7 1 [Byte.x41] (Server.init None)).
Proof.
  apply (data_accepted_iff_expected 7 (wire 1 0 0 [Byte.x41]) 1 0 0 [Byte.x41]
           (Server.init None)); [reflexivity | by repeat split | discriminate | reflexivity].
Defined.

(** C5 as stated fails at the fault-injection guard of line 178: with
    [discard_seq = 1] the data packet of sequence 1 is dropped although
    [expected_seq = 1] (nothing appended, no ACK, [expected_seq] still 1);
    with [discard_seq = 2] the out-of-order packet of sequence 2 changes the
    receiver's state ([discard_seq] is cleared); and the first datagram sets
    [start_time] whatever its sequence. *)
Lemma data_accepted_iff_expected_counterexample :
  parse_packet (wire 1 0 0 [Byte.x41]) = Ok (1, 0, 0, [Byte.x41]) ∧
  Server.expected_seq (Server.init (Some 1)) = 1 ∧
  Server.server_step 7 (Datagram (wire 1 0 0 [Byte.x41])) (Server.init (Some 1))
    = (Ok false, Server.State [] 1 None (Some 7) []) ∧
  Server.expected_seq (Server.init (Some 2)) ≠ 2 ∧
  Server.server_step 7 (Datagram (wire 2 0 0 [Byte.x41])) (Server.init (Some 2))
    = (Ok false, Server.State [] 1 None (Some 7) []) ∧
  Server.State [] 1 None (Some 7) [] ≠ Server.init (Some 2) ∧
  Server.server_step 7 (Datagram (wire 5 0 0 [Byte.x41])) (Server.init None)
    = (Ok false, Server.State [] 1 None (Some 7) []) ∧
  Server.State [] 1 None (Some 7) [] ≠ Server.init None.
Proof. repeat split; try reflexivity; discriminate. Qed.

(** C8, as the code has it: decoding a buffer of fewer than 6 bytes fails
    with [struct.error], and no engine catches it: the receiver's loop ends
    with that exception at such a datagram, and so does the sender at each of
    its three receive points.  Neither replies nor changes a variable, so the
    datagram is not taken for a protocol signal. *)
Theorem short_datagram_raises (packet : bytes) :
  (length packet < 6)%nat →
  parse_packet packet = Raise struct_error ∧
  (∀ now s, Server.server_step now (Datagram packet) s = (Raise struct_error, s)) ∧
  (∀ now evs s, Server.serve ((now, Datagram packet) :: evs) s = (Raise struct_error, s)) ∧
  (∀ fd w ph s, Client.terminal ph = false →
     Client.client_step fd w ph (Datagram packet) s = (Raise struct_error, s)) ∧
  (∀ fd w ph evs s, Client.terminal ph = false →
     Client.client_steps fd w ph (Datagram packet :: evs) s = (Raise struct_error, s)).
Proof.
  intros Hlen. pose proof (parse_packet_short packet Hlen) as Hparse.
  assert (Hsrv : ∀ now s,
    Server.server_step now (Datagram packet) s = (Raise struct_error, s)).
  { intros. unfold Server.server_step, lift, mbind, M_bind. by rewrite Hparse. }
  assert (Hcli : ∀ fd w ph s, Client.terminal ph = false →
    Client.client_step fd w ph (Datagram packet) s = (Raise struct_error, s)).
  { intros fd w [] s Hph; try discriminate;
      unfold Client.client_step, lift, mbind, M_bind; by rewrite Hparse. }
  repeat split; try done.
  - intros. cbn [Server.serve]. unfold mbind, M_bind. by rewrite Hsrv.
  - intros fd w ph evs s Hph. cbn [Client.client_steps]. rewrite Hph.
    unfold mbind, M_bind. by rewrite Hcli.
Qed.

Lemma short_datagram_raises_witness :
  parse_packet [Byte.x00; Byte.x01; Byte.x02] = Raise struct_error.
Proof.
  apply (short_datagram_raises [Byte.x00; Byte.x01; Byte.x02]). simpl. lia.
Defined.

(** C8 as stated fails: a 3-byte datagram ends the receiver's loop with
    [struct.error], and the SYN that arrives after it is never answered;
    had the datagram been discarded, the SYN would have been answered with
    SYN|ACK.  It also ends a sender that waits for ACKs. *)
Lemma short_datagram_raises_counterexample :
  Server.serve [(7, Datagram [Byte.x00; Byte.x01; Byte.x02]);
                (8, Datagram (wire 0 0 SYN_FLAG []))] (Server.init None)
    = (Raise struct_error, Server.init None) ∧
  Server.serve [(8, Datagram (wire 0 0 SYN_FLAG []))] (Server.init None)
    = (Ok false, Server.State [] 1 None (Some 8) [wire 0 0 (Z.lor SYN_FLAG ACK_FLAG) []]) ∧
  Client.client_step [] 3 Client.Wait (Datagram [Byte.x00; Byte.x01; Byte.x02])
      Client.init
    = (Raise struct_error, Client.init).
Proof. repeat split; reflexivity. Qed.

(** ** Loops of the engine monad *)

Lemma while_unfold {St} (fuel : nat) (cond : St → bool) (body : M St ()) (s : St) :
  while (S fuel) cond body s =
    if cond s then
      match body s with
      | (Ok _, s') => while fuel cond body s'
      | (Raise e, s') => (Raise e, s')
      end
    else (Ok (), s).
Proof. reflexivity. Qed.

(** A property kept by every turn holds when the loop is left, by its
    condition, by an exception or by the end of the fuel. *)
Lemma while_inv {St} (I : St → Prop) (cond : St → bool) (body : M St ()) :
  (∀ s, I s → cond s = true → I (body s).2) →
  ∀ fuel s, I s → I (while fuel cond body s).2.
Proof.
  intros Hbody fuel. induction fuel as [|fuel IH]; intros s Hs; [exact Hs|].
  rewrite while_unfold. destruct (cond s) eqn:Hc; [|exact Hs].
  specialize (Hbody s Hs Hc). destruct (body s) as [[[]|e] s']; simpl in *.
  - by apply IH.
  - exact Hbody.
Qed.

(** With fuel for a measure that is positive while the condition holds and
    that every turn decreases, a loop that returns has left by its
    condition. *)
Lemma while_exits {St} (μ : St → nat) (cond : St → bool) (body : M St ()) :
  (∀ s, cond s = true → (0 < μ s)%nat) →
  (∀ s s', cond s = true → body s = (Ok (), s') → (μ s' < μ s)%nat) →
  ∀ fuel s, (μ s ≤ fuel)%nat →
    (while fuel cond body s).1 = Ok () →
    cond (while fuel cond body s).2 = false.
Proof.
  intros Hpos Hdec fuel. induction fuel as [|fuel IH]; intros s Hfuel.
  - simpl. intros _. destruct (cond s) eqn:Hc; [|reflexivity].
    specialize (Hpos s Hc). lia.
  - rewrite while_unfold. destruct (cond s) eqn:Hc; [|by simpl].
    destruct (body s) as [[[]|e] s'] eqn:Hb; simpl.
    + apply IH. specialize (Hdec s s' Hc Hb). lia.
    + discriminate.
Qed.

Lemma for_each_inv {St A} (I : St → Prop) (body : A → M St ()) :
  (∀ x s, I s → I (body x s).2) →
  ∀ xs s, I s → I (for_each xs body s).2.
Proof.
  intros Hbody xs. induction xs as [|x xs IH]; intros s Hs; [exact Hs|].
  cbn [for_each]. monad_simpl.
  specialize (Hbody x s Hs). destruct (body x s) as [[[]|e] s']; simpl in *.
  - by apply IH.
  - exact Hbody.
Qed.

Lemma preserves_bind {St A B} (I : St → Prop) (m : M St A) (k : A → M St B) :
  preserves I m → (∀ a, preserves I (k a)) → preserves I (m ≫= k).
Proof.
  intros Hm Hk s Hs. monad_simpl. specialize (Hm s Hs).
  destruct (m s) as [[a|e] s']; simpl in *; [by apply Hk | exact Hm].
Qed.

Lemma preserves_ret {St A} (I : St → Prop) (a : A) : preserves I (mret a : M St A).
Proof. by intros s Hs. Qed.

Lemma preserves_lift {St A} (I : St → Prop) (r : result A) :
  preserves I (lift r : M St A).
Proof. by intros s Hs. Qed.

Lemma preserves_gets {St A} (I : St → Prop) (f : St → A) : preserves I (gets f).
Proof. by intros s Hs. Qed.

Lemma preserves_for_each {St A} (I : St → Prop) (xs : list A) (body : A → M St ()) :
  (∀ x, preserves I (body x)) → preserves I (for_each xs body).
Proof. intros Hbody s Hs. apply for_each_inv; [|exact Hs]. intros x. apply Hbody. Qed.

Create HintDb preserves.
#[local] Hint Resolve preserves_ret preserves_lift preserves_gets : preserves.

(** ** Sender: the window *)

Section sender.

Variable file_data : bytes.
Variable window_size : Z.

Local Abbreviation send_window := (Client.send_window file_data window_size).
Local Abbreviation send_window_body := (Client.send_window_body file_data).
Local Abbreviation send_window_cond := (Client.send_window_cond file_data window_size).
Local Abbreviation total_packets := (Client.total_packets file_data).
Local Abbreviation transfer_loop := (Client.transfer_loop file_data window_size).
Local Abbreviation retransmit_packets := (Client.retransmit_packets file_data).
Local Abbreviation client_step := (Client.client_step file_data window_size).
Local Abbreviation client_steps := (Client.client_steps file_data window_size).
Local Abbreviation winv := (window_inv window_size).

Lemma send_packet_inv (packet : bytes) (s : Client.state) :
  winv s → winv (Client.send_packet packet s).2.
Proof. done. Qed.

Lemma add_next_window (s : Client.state) :
  (∀ k, k ∈ Client.window s ↔ Client.base s ≤ k < Client.next_seq s) →
  Client.base s ≤ Client.next_seq s →
  ∀ k, k ∈ Client.window (Client.add_next s)
       ↔ Client.base (Client.add_next s) ≤ k < Client.next_seq (Client.add_next s).
Proof.
  intros Hw Hle k. cbn [Client.add_next Client.window Client.base Client.next_seq].
  rewrite elem_of_union, elem_of_singleton, Hw. lia.
Qed.

Lemma send_window_body_inv (s : Client.state) :
  1 ≤ window_size →
  winv s → send_window_cond s = true → winv (send_window_body s).2.
Proof.
  intros HW (Hb & Hle & Hup & Hw) Hcond.
  unfold Client.send_window_cond in Hcond.
  apply andb_true_iff in Hcond as [Hc1 Hc2]. apply Z.leb_le in Hc1, Hc2.
  unfold Client.send_window_body. monad_simpl.
  destruct (Z.ltb_spec (Client.next_seq s - 1) 1) as [Hskip|Hskip]; cbn beta iota.
  - assert (Client.next_seq s = 1) as Hn by lia.
    assert (Client.base s = 1) as Hb1 by lia.
    pose proof (add_next_window s Hw Hle) as Hw1.
    assert (winv (Client.add_next s)) as Hinv1.
    { split_and!; [..|exact Hw1]; cbn [Client.add_next Client.base Client.next_seq]; lia. }
    destruct (create_packet _ 0 0 _) as [packet|e]; cbn beta iota; [|exact Hinv1].
    unfold Client.send_packet. monad_simpl. cbn [snd].
    split_and!; [..|apply (add_next_window (Client.State _ _ _ _)); [exact Hw1|]];
      cbn [Client.add_next Client.base Client.next_seq]; lia.
  - destruct (create_packet _ 0 0 _) as [packet|e]; cbn beta iota; [|done].
    unfold Client.send_packet. monad_simpl. cbn [snd].
    split_and!; [..|apply (add_next_window (Client.State _ _ _ _)); [exact Hw|]];
      cbn [Client.add_next Client.base Client.next_seq]; lia.
Qed.

Lemma send_window_inv (s : Client.state) :
  1 ≤ window_size → winv s → winv (send_window s).2.
Proof.
  intros HW Hs. unfold Client.send_window.
  apply while_inv; [|exact Hs]. intros. by apply send_window_body_inv.
Qed.

(** The fuel of [send_window] is enough: when it returns, the condition
    of its loop is false. *)
Lemma send_window_exits (s : Client.state) :
  (send_window s).1 = Ok () → send_window_cond (send_window s).2 = false.
Proof.
  unfold Client.send_window.
  apply (while_exits (λ s, Z.to_nat (total_packets + 1 - Client.next_seq s))); [..|lia].
  - intros s0 Hc. unfold Client.send_window_cond in Hc.
    apply andb_true_iff in Hc as [_ Hc]. apply Z.leb_le in Hc. lia.
  - intros s0 s' Hc. unfold Client.send_window_cond in Hc.
    apply andb_true_iff in Hc as [_ Hc]. apply Z.leb_le in Hc.
    unfold Client.send_window_body. monad_simpl.
    destruct (Client.next_seq s0 - 1 <? 1); cbn beta iota;
      (destruct (create_packet _ 0 0 _); cbn beta iota; [|discriminate]);
      unfold Client.send_packet; monad_simpl; intros [= <-];
      cbn [Client.add_next Client.next_seq]; lia.
Qed.

(** *** The slide of lines 303-305 *)

Lemma window_remove_base_inv : preserves winv (Client.window_remove_base;; modify Client.incr_base).
Proof.
  intros s (Hb & Hle & Hup & Hw). monad_simpl. unfold Client.window_remove_base.
  case_bool_decide as Hin; cbn [snd]; [|done].
  apply Hw in Hin.
  split_and!; cbn [Client.incr_base Client.base Client.next_seq Client.window]; try lia.
  intros k. rewrite elem_of_difference, elem_of_singleton, Hw. lia.
Qed.

Lemma slide_window_inv (ack_num : Z) :
  preserves winv (Client.slide_window ack_num).
Proof.
  intros s Hs. unfold Client.slide_window.
  apply while_inv; [|exact Hs]. intros s0 Hs0 _. by apply window_remove_base_inv.
Qed.

Lemma slide_loop_ok (ack_num : Z) (fuel : nat) (s : Client.state) :
  Z.to_nat (ack_num + 1 - Client.base s) = fuel →
  Client.base s ≤ ack_num + 1 →
  (∀ k, Client.base s ≤ k ≤ ack_num → k ∈ Client.window s) →
  while fuel (λ s, Client.base s <=? ack_num)
        (Client.window_remove_base;; modify Client.incr_base) s
  = (Ok (), slid ack_num s).
Proof.
  revert s. induction fuel as [|fuel IH]; intros s Hfuel Hle Hin.
  - cbn [while]. monad_simpl. f_equal. unfold slid.
    rewrite seqZ_nil by lia. destruct s as [b n w l]; simpl in *.
    f_equal; [lia | symmetry; apply difference_empty_L].
  - rewrite while_unfold.
    destruct (Z.leb_spec (Client.base s) ack_num) as [Hb|Hb]; [|lia].
    monad_simpl. unfold Client.window_remove_base.
    rewrite bool_decide_eq_true_2 by (apply Hin; lia). cbn beta iota.
    rewrite IH; cbn [Client.incr_base Client.base Client.window]; [|lia|lia|].
    + f_equal. unfold slid. cbn [Client.base Client.next_seq Client.window Client.sent].
      f_equal. rewrite (seqZ_cons (Client.base s)) by lia.
      rewrite list_to_set_cons.
      replace (Z.succ (Client.base s)) with (Client.base s + 1) by lia.
      replace (Z.pred (ack_num + 1 - Client.base s))
        with (ack_num + 1 - (Client.base s + 1)) by lia.
      apply difference_difference_l_L.
    + intros k Hk. apply elem_of_difference. split; [apply Hin; lia|].
      rewrite elem_of_singleton. lia.
Qed.

Lemma slide_window_ok (ack_num : Z) (s : Client.state) :
  Client.base s ≤ ack_num →
  (∀ k, Client.base s ≤ k ≤ ack_num → k ∈ Client.window s) →
  Client.slide_window ack_num s = (Ok (), slid ack_num s).
Proof.
  intros Hle Hin. unfold Client.slide_window. apply slide_loop_ok; [done|lia|done].
Qed.

(** The fuel of [slide_window] is enough: when it returns, the condition
    of its loop is false. *)
Lemma slide_window_exits (ack_num : Z) (s : Client.state) :
  (Client.slide_window ack_num s).1 = Ok () →
  (Client.base (Client.slide_window ack_num s).2 <=? ack_num) = false.
Proof.
  unfold Client.slide_window.
  apply (while_exits (λ s, Z.to_nat (ack_num + 1 - Client.base s))
           (λ s, Client.base s <=? ack_num)); [..|lia].
  - intros s0 Hc. apply Z.leb_le in Hc. lia.
  - intros s0 s' Hc. apply Z.leb_le in Hc. monad_simpl.
    unfold Client.window_remove_base. case_bool_decide; [|discriminate].
    cbn beta iota. intros [= <-]. cbn [Client.incr_base Client.base]. lia.
Qed.

(** An acknowledgment at or beyond [next_seq]: the slide empties the
    window and then [window.remove] raises. *)
Lemma slide_loop_KeyError (ack_num : Z) (fuel : nat) (s : Client.state) :
  winv s → Client.next_seq s ≤ ack_num →
  Z.to_nat (ack_num + 1 - Client.base s) = fuel →
  let r := while fuel (λ s, Client.base s <=? ack_num)
             (Client.window_remove_base;; modify Client.incr_base) s in
  r.1 = Raise KeyError ∧ Client.base r.2 = Client.next_seq s.
Proof.
  revert s. induction fuel as [|fuel IH]; intros s Hinv Hn Hfuel.
  - destruct Hinv as (_ & Hle & _). lia.
  - intros r. subst r. rewrite while_unfold.
    pose proof Hinv as (Hb & Hle & Hup & Hw).
    destruct (Z.leb_spec (Client.base s) ack_num) as [_|Hgt]; [|lia].
    pose proof (window_remove_base_inv s Hinv) as Hinv'. revert Hinv'.
    monad_simpl. unfold Client.window_remove_base.
    case_bool_decide as Hin; cbn beta iota; cbn [snd]; intros Hinv'.
    + apply Hw in Hin.
      specialize (IH _ Hinv'). cbn [Client.incr_base Client.base Client.next_seq] in IH.
      apply IH; lia.
    + cbn [fst snd]. split; [reflexivity|].
      assert (¬ Client.base s < Client.next_seq s) by (intros ?; apply Hin, Hw; lia).
      lia.
Qed.

Lemma slide_window_KeyError (ack_num : Z) (s : Client.state) :
  winv s → Client.next_seq s ≤ ack_num →
  (Client.slide_window ack_num s).1 = Raise KeyError ∧
  Client.base (Client.slide_window ack_num s).2 = Client.next_seq s.
Proof.
  intros Hinv Hn. unfold Client.slide_window. by apply slide_loop_KeyError.
Qed.

(** *** Retransmission, lines 243-248 *)

Lemma py_slice_chunk (k : Z) :
  1 ≤ k → py_slice file_data ((k - 1) * MAX_DATA_SIZE) (k * MAX_DATA_SIZE) = chunk file_data k.
Proof.
  intros Hk. unfold chunk, MAX_DATA_SIZE. rewrite py_slice_nonneg by lia.
  do 2 f_equal. lia.
Qed.

Lemma retransmit_loop_ok (seqs : list Z) (s : Client.state) :
  Forall (λ k, 1 ≤ k ≤ 65535) seqs →
  for_each seqs (λ seq,
    let data := py_slice file_data ((seq - 1) * MAX_DATA_SIZE) (seq * MAX_DATA_SIZE) in
    packet ← lift (create_packet seq 0 0 data);
    Client.send_packet packet) s
  = (Ok (), Client.State (Client.base s) (Client.next_seq s) (Client.window s)
              (Client.sent s ++ ((λ k, wire k 0 0 (chunk file_data k)) <$> seqs))).
Proof.
  revert s. induction seqs as [|k seqs IH]; intros s Hall.
  - cbn [for_each fmap list_fmap]. monad_simpl. rewrite app_nil_r. by destruct s.
  - apply Forall_cons in Hall as [Hk Hall].
    cbn [for_each]. monad_simpl.
    rewrite create_packet_ok by lia. cbn beta iota. unfold Client.send_packet at 1.
    monad_simpl. rewrite IH by assumption.
    cbn [Client.base Client.next_seq Client.window Client.sent].
    rewrite py_slice_chunk by lia. by rewrite <- app_assoc.
Qed.

Lemma retransmit_packets_ok (s : Client.state) :
  1 ≤ Client.base s → Client.next_seq s ≤ 65537 →
  retransmit_packets s
  = (Ok (), Client.State (Client.base s) (Client.next_seq s) (Client.window s)
              (Client.sent s ++ ((λ k, wire k 0 0 (chunk file_data k))
                 <$> seqZ (Client.base s) (Client.next_seq s - 1 - Client.base s)))).
Proof.
  intros Hb Hn. unfold Client.retransmit_packets. apply retransmit_loop_ok.
  apply Forall_seqZ. intros k Hk. lia.
Qed.

Lemma retransmit_packets_inv : preserves winv retransmit_packets.
Proof.
  intros s Hs. unfold Client.retransmit_packets.
  apply (preserves_for_each winv); [|exact Hs].
  intros k. apply preserves_bind; [apply preserves_lift|]. intros p s0 Hs0. done.
Qed.

(** *** The window invariant along a run *)

Hypothesis window_positive : 1 ≤ window_size.

Lemma send_packet_preserves (packet : bytes) :
  preserves winv (Client.send_packet packet).
Proof. intros s Hs. by apply send_packet_inv. Qed.

Lemma send_window_preserves : preserves winv send_window.
Proof. intros s Hs. by apply send_window_inv. Qed.

Ltac preserves_step :=
  first
    [ solve [auto with preserves]
    | apply send_packet_preserves | apply send_window_preserves
    | apply slide_window_inv | apply retransmit_packets_inv
    | apply preserves_bind; [|intros ?]
    | match goal with
      | a : (_ * _)%type |- _ => destruct a
      | |- preserves _ (if ?b then _ else _) => destruct b
      end ].

Lemma transfer_loop_preserves : preserves winv transfer_loop.
Proof. unfold Client.transfer_loop. repeat preserves_step. Qed.

Lemma client_step_preserves (ph : Client.phase) (ev : event) :
  preserves winv (client_step ph ev).
Proof.
  destruct ph, ev as [packet|]; cbn [Client.client_step];
    repeat (apply transfer_loop_preserves || preserves_step).
Qed.

Lemma client_steps_preserves (ph : Client.phase) (evs : list event) :
  preserves winv (client_steps ph evs).
Proof.
  revert ph. induction evs as [|ev evs IH]; intros ph; cbn [Client.client_steps].
  - apply preserves_ret.
  - destruct (Client.terminal ph); [apply preserves_ret|].
    apply preserves_bind; [apply client_step_preserves | intros ph'; apply IH].
Qed.

Lemma init_window_inv : winv Client.init.
Proof.
  unfold winv. cbn. split_and!; try lia. intros k. rewrite elem_of_empty. lia.
Qed.

Lemma run_client_window_inv (evs : list event) :
  winv (Client.run_client file_data window_size evs).2.
Proof.
  unfold Client.run_client.
  apply (preserves_bind winv); [|intros ph; apply client_steps_preserves|apply init_window_inv].
  unfold Client.start. repeat preserves_step.
Qed.

Lemma window_inv_elements (s : Client.state) :
  winv s →
  Client.window s
  = list_to_set (seqZ (Client.base s) (Client.next_seq s - Client.base s)).
Proof.
  intros (_ & _ & _ & Hw). apply set_eq. intros k.
  rewrite Hw, elem_of_list_to_set, elem_of_seqZ. lia.
Qed.

End sender.

(** C3 as stated fails: the loop of [send_window] runs while
    [next_seq <= base + window_size], so it stops one past the capacity.
    With 3000 bytes (4 segments) and capacity 3, after the first send round
    [base = 1], [next_seq = 5] and [window] holds 4 numbers. *)
Lemma window_bound_counterexample :
  let s := (Client.run_client (replicate 3000 Byte.x00) 3 [Datagram (wire 0 0 3 [])]).2 in
  Client.base s = 1 ∧ Client.next_seq s = 5 ∧
  ¬ (Client.next_seq s - Client.base s ≤ 3) ∧
  size (Client.window s) = 4%nat.
Proof. vm_compute. split_and!; try reflexivity. intros H. by apply H. Qed.

(** C6, as the code has it: in the wait loop, a packet with the ACK flag and
    [ack_num >= base], all of [base .. ack_num] being in [window] (that is,
    [ack_num < next_seq]), removes exactly these numbers from [window], sets
    [base = ack_num + 1] and runs [send_window] at once; with
    [ack_num < base] nothing changes and nothing is sent. *)
Theorem cumulative_ack_slide (file_data : bytes) (window_size : Z)
    (packet : bytes) (sq ack_num flags : Z) (data : bytes) (s : Client.state) :
  parse_packet packet = Ok (sq, ack_num, flags, data) →
  is_flag_set flags ACK_FLAG = true →
  (Client.base s ≤ ack_num →
   (∀ k, Client.base s ≤ k ≤ ack_num → k ∈ Client.window s) →
     Client.client_step file_data window_size Client.Wait (Datagram packet) s
     = (Client.send_window file_data window_size;; mret Client.Wait) (slid ack_num s) ∧
     Client.base (slid ack_num s) = ack_num + 1 ∧
     ∀ k, k ∈ Client.window (slid ack_num s)
          ↔ k ∈ Client.window s ∧ ¬ (Client.base s ≤ k ≤ ack_num)) ∧
  (ack_num < Client.base s →
     Client.client_step file_data window_size Client.Wait (Datagram packet) s
     = (Ok Client.Wait, s)).
Proof.
  intros Hparse Hack. split.
  - intros Hle Hin. split_and!; [|reflexivity|].
    + cbn [Client.client_step]. monad_simpl. rewrite Hparse. cbn beta iota.
      rewrite Hack. destruct (Z.leb_spec (Client.base s) ack_num); [|lia].
      cbn [andb]. rewrite slide_window_ok by assumption. reflexivity.
    + intros k. unfold slid. cbn [Client.window].
      rewrite elem_of_difference, elem_of_list_to_set, elem_of_seqZ.
      split; intros [? ?]; (split; [assumption|lia]).
  - intros Hlt. cbn [Client.client_step]. monad_simpl. rewrite Hparse. cbn beta iota.
    rewrite Hack. destruct (Z.leb_spec (Client.base s) ack_num); [lia|]. reflexivity.
Qed.

Lemma cumulative_ack_slide_witness :
  let s := Client.State 1 4 {[1; 2; 3]} [] in
  Client.client_step [] 3 Client.Wait (Datagram (wire 0 2 ACK_FLAG [])) s
  = (Client.send_window [] 3;; mret Client.Wait) (slid 2 s).
Proof.
  intros s.
  apply (cumulative_ack_slide [] 3 (wire 0 2 ACK_FLAG []) 0 2 ACK_FLAG [] s);
    [reflexivity | reflexivity | cbn; lia |].
  intros k Hk. cbn in Hk. cbn [s Client.window].
  rewrite !elem_of_union, !elem_of_singleton. lia.
Defined.

(** C6 as stated fails for an acknowledgment beyond what is in flight: after
    the first send round of a 2000-byte payload ([base = 1], [next_seq = 4])
    an ACK packet with [ack_num = 5 >= base] makes [window.remove] raise
    [KeyError], which nothing catches; [base] stops at 4, not at 6. *)
Lemma cumulative_ack_slide_counterexample :
  let s := (Client.run_client (replicate 2000 Byte.x00) 3 [Datagram (wire 0 0 3 [])]).2 in
  let r := Client.client_step (replicate 2000 Byte.x00) 3 Client.Wait
             (Datagram (wire 0 5 ACK_FLAG [])) s in
  Client.base s = 1 ∧ Client.next_seq s = 4 ∧
  parse_packet (wire 0 5 ACK_FLAG []) = Ok (0, 5, ACK_FLAG, []) ∧
  is_flag_set ACK_FLAG ACK_FLAG = true ∧
  r.1 = Raise KeyError ∧ Client.base r.2 = 4 ∧ Client.base r.2 ≠ 5 + 1.
Proof. vm_compute. split_and!; try reflexivity. discriminate. Qed.

(** X18: [retransmit_packets] resends every sequence number from [base] up
    to [next_seq - 1] (the numbers that [send_window] has transmitted)
    exactly once, in ascending order, each as a fresh packet with that
    sequence number, [ack_number = 0], [flags = 0] and the slice
    [file_data[(seq-1)*994 : seq*994]] of the payload; it runs after every
    wait loop (line 313 is outside the test of line 311), and then the loop
    of line 292 goes on. *)
Theorem retransmission_resends_window (file_data : bytes) (window_size : Z)
    (s : Client.state) :
  1 ≤ Client.base s → Client.next_seq s ≤ 65537 →
  let resent := (λ k, wire k 0 0 (chunk file_data k))
                  <$> seqZ (Client.base s) (Client.next_seq s - 1 - Client.base s) in
  let s' := Client.State (Client.base s) (Client.next_seq s) (Client.window s)
              (Client.sent s ++ resent) in
  Client.retransmit_packets file_data s = (Ok (), s') ∧
  Client.client_step file_data window_size Client.Wait Timeout s
    = Client.transfer_loop file_data window_size s' ∧
  Forall (λ k, parse_packet (wire k 0 0 (chunk file_data k))
               = Ok (k, 0, 0, chunk file_data k))
         (seqZ (Client.base s) (Client.next_seq s - 1 - Client.base s)).
Proof.
  intros Hb Hn resent s'.
  pose proof (retransmit_packets_ok file_data s Hb Hn) as Hre. fold resent s' in Hre.
  split_and!.
  - exact Hre.
  - cbn [Client.client_step]. monad_simpl. by rewrite Hre.
  - apply Forall_seqZ. intros k Hk. apply parse_packet_header; lia.
Qed.

Lemma retransmission_resends_window_witness :
  let fd := sample_payload 3000 in
  let s := (Client.run_client fd 3 [Datagram (wire 0 0 3 [])]).2 in
  Client.base s = 1 ∧ Client.next_seq s = 5 ∧
  Client.sent (Client.retransmit_packets fd s).2
  = Client.sent s ++ [wire 1 0 0 (chunk fd 1); wire 2 0 0 (chunk fd 2);
                      wire 3 0 0 (chunk fd 3)].
Proof.
  intros fd s.
  assert (Hb : Client.base s = 1) by (vm_compute; reflexivity).
  assert (Hn : Client.next_seq s = 5) by (vm_compute; reflexivity).
  split_and!; [exact Hb | exact Hn |].
  destruct (retransmission_resends_window fd 3 s) as (H & _); [lia | lia |].
  rewrite H, Hb, Hn. reflexivity.
Defined.

(** C2 at the loss scenario: a 2000-byte payload, capacity 3, the receiver
    set to discard sequence 2 once, otherwise lossless transport.
    [send_window] sends sequence 2 with the third chunk (12 bytes); the
    receiver drops it; after the timeout [retransmit_packets] resends
    sequence 2, the only number in flight, but with the second chunk (994
    bytes): the same sequence number, not the same payload.  The receiver
    takes it, and ends with the second chunk twice (1988 bytes) instead of
    the payload. *)
Theorem retransmission_changes_payload :
  let fd := sample_payload 2000 in
  let w := Lossless.transfer fd 3 (Some 2) 6 in
  Lossless.client_ctl (Lossless.transfer fd 3 (Some 2) 2) = Ok Client.Wait ∧
  Client.base (Lossless.client (Lossless.transfer fd 3 (Some 2) 2)) = 2 ∧
  Client.next_seq (Lossless.client (Lossless.transfer fd 3 (Some 2) 2)) = 4 ∧
  Client.sent (Lossless.client (Lossless.transfer fd 3 (Some 2) 2))
    = [wire 0 0 SYN_FLAG []; wire 0 0 ACK_FLAG [];
       wire 1 0 0 (chunk fd 2); wire 2 0 0 (chunk fd 3)] ∧
  Client.sent (Lossless.client (Lossless.transfer fd 3 (Some 2) 3))
    = [wire 0 0 SYN_FLAG []; wire 0 0 ACK_FLAG [];
       wire 1 0 0 (chunk fd 2); wire 2 0 0 (chunk fd 3);
       wire 2 0 0 (chunk fd 2)] ∧
  length (chunk fd 3) = 12%nat ∧ length (chunk fd 2) = 994%nat ∧
  wire 2 0 0 (chunk fd 2) ≠ wire 2 0 0 (chunk fd 3) ∧
  Lossless.client_ctl w = Ok Client.Closed ∧
  Lossless.server_ctl w = Ok true ∧
  Server.file_data (Lossless.server w) = chunk fd 2 ++ chunk fd 2 ∧
  length (Server.file_data (Lossless.server w)) = 1988%nat ∧
  Server.file_data (Lossless.server w) ≠ fd.
Proof.
  split_and!; try (vm_compute; reflexivity).
  - intros H. apply (f_equal length) in H. vm_compute in H. discriminate.
  - intros H. apply (f_equal length) in H. vm_compute in H. discriminate.
Qed.

(** ** Sender: the loop of line 292 *)

Lemma transfer_loop_round (file_data : bytes) (window_size : Z) (s : Client.state) :
  Client.base s < Client.total_packets file_data →
  Client.transfer_loop file_data window_size s
  = (Client.send_window file_data window_size;; mret Client.Wait) s.
Proof.
  intros H. unfold Client.transfer_loop. monad_simpl.
  destruct (Z.ltb_spec (Client.base s) (Client.total_packets file_data)); [|lia].
  reflexivity.
Qed.

Lemma transfer_loop_exit (file_data : bytes) (window_size : Z) (s : Client.state) :
  Client.total_packets file_data ≤ Client.base s →
  Client.transfer_loop file_data window_size s
  = (Ok Client.Teardown,
     Client.State (Client.base s) (Client.next_seq s) (Client.window s)
       (Client.sent s ++ [wire 0 0 FIN_FLAG []])).
Proof.
  intros H. unfold Client.transfer_loop. monad_simpl.
  destruct (Z.ltb_spec (Client.base s) (Client.total_packets file_data)); [lia|].
  reflexivity.
Qed.

(** [total_packets] is the ceiling of [len(file_data) / 994]. *)
Lemma total_packets_ceil (file_data : bytes) :
  let L := Z.of_nat (length file_data) in
  let n := Client.total_packets file_data in
  (n - 1) * MAX_DATA_SIZE < L ≤ n * MAX_DATA_SIZE ∨ (L = 0 ∧ n = 0).
Proof.
  intros L n. subst n. unfold Client.total_packets, MAX_DATA_SIZE. fold L.
  pose proof (Z.div_mod (L + 994 - 1) 994). pose proof (Z.mod_pos_bound (L + 994 - 1) 994).
  assert (0 ≤ L) by (subst L; lia). lia.
Qed.

(** One turn of [send_window] past the first: the packet of sequence number
    [next_seq - 1] carries the chunk of number [next_seq]. *)
Lemma send_window_body_ok (file_data : bytes) (s : Client.state) :
  2 ≤ Client.next_seq s ≤ 65536 →
  Client.send_window_body file_data s
  = (Ok (), Client.State (Client.base s) (Client.next_seq s + 1)
              ({[Client.next_seq s]} ∪ Client.window s)
              (Client.sent s ++ [wire (Client.next_seq s - 1) 0 0
                                   (chunk file_data (Client.next_seq s))])).
Proof.
  intros Hn. unfold Client.send_window_body. monad_simpl.
  destruct (Z.ltb_spec (Client.next_seq s - 1) 1); [lia|]. cbn beta iota.
  rewrite create_packet_ok by lia. cbn beta iota.
  rewrite py_slice_chunk by lia. reflexivity.
Qed.

Lemma idle_send (p : bytes) (s : Client.state) :
  control_packet p → idle s →
  idle (Client.State (Client.base s) (Client.next_seq s) (Client.window s)
          (Client.sent s ++ [p])).
Proof.
  intros Hp (Hb & Hn & Hw & Hs). split_and!; try done.
  cbn. apply Forall_app. split; [done|]. by apply Forall_singleton.
Qed.

Lemma client_step_idle (file_data : bytes) (window_size : Z)
    (ph : Client.phase) (ev : event) (s : Client.state) :
  Client.total_packets file_data ≤ 1 →
  ph ≠ Client.Wait → idle s →
  (Client.client_step file_data window_size ph ev s).1 ≠ Ok Client.Wait ∧
  idle (Client.client_step file_data window_size ph ev s).2.
Proof.
  intros Htot Hph Hs.
  assert (Hfin : control_packet (wire 0 0 FIN_FLAG [])) by (right; by right).
  assert (Hack : control_packet (wire 0 0 ACK_FLAG [])) by (right; by left).
  destruct ph, ev as [packet|]; try done; cbn [Client.client_step]; monad_simpl;
    try (destruct (parse_packet packet) as [[[[? ?] fl] ?]|e]; cbn beta iota;
         [|cbn [fst snd]; split; [discriminate|done]]).
  - destruct (is_flag_set fl _); cbn beta iota.
    + change (create_packet 0 0 ACK_FLAG []) with (Ok (wire 0 0 ACK_FLAG [])).
      unfold Client.send_packet. monad_simpl.
      pose proof (idle_send _ _ Hack Hs) as Hs1.
      rewrite transfer_loop_exit by (destruct Hs1 as (-> & _); lia).
      cbn [fst snd]. split; [discriminate|]. exact (idle_send _ _ Hfin Hs1).
    + rewrite transfer_loop_exit by (destruct Hs as (-> & _); lia).
      cbn [fst snd]. split; [discriminate|]. by apply idle_send.
  - destruct (is_flag_set fl _); cbn beta iota; cbn [fst snd];
      (split; [discriminate|done]).
  - change (create_packet 0 0 FIN_FLAG []) with (Ok (wire 0 0 FIN_FLAG [])).
    unfold Client.send_packet. monad_simpl. cbn [fst snd].
    split; [discriminate|]. by apply idle_send.
Qed.

Lemma client_steps_idle (file_data : bytes) (window_size : Z)
    (evs : list event) (ph : Client.phase) (s : Client.state) :
  Client.total_packets file_data ≤ 1 →
  ph ≠ Client.Wait → idle s →
  (Client.client_steps file_data window_size ph evs s).1 ≠ Ok Client.Wait ∧
  idle (Client.client_steps file_data window_size ph evs s).2.
Proof.
  intros Htot. revert ph s. induction evs as [|ev evs IH]; intros ph s Hph Hs;
    cbn [Client.client_steps].
  - split; [|done]. cbn. congruence.
  - destruct (Client.terminal ph); [split; [cbn; congruence|done]|].
    monad_simpl.
    pose proof (client_step_idle file_data window_size ph ev s Htot Hph Hs) as [Hr Hs'].
    destruct (Client.client_step file_data window_size ph ev s) as [[ph'|e] s'];
      cbn [fst snd] in *.
    + apply IH; [congruence|done].
    + cbn [fst snd]. split; [discriminate|done].
Qed.

(** C9: a payload of at most 994 bytes has [total_packets <= 1], so the body
    of the loop of line 292 never runs: whatever the sender receives, it
    never waits for an ACK, [base] and [next_seq] stay 1, [window] stays
    empty and every packet it sends is SYN, ACK or FIN, never a data
    packet; the receive of the handshake leads straight to the FIN of the
    teardown. *)
Theorem single_segment_sends_no_data (file_data : bytes) (window_size : Z)
    (evs : list event) :
  (length file_data ≤ 994)%nat →
  Client.total_packets file_data ≤ 1 ∧
  (let r := Client.run_client file_data window_size evs in
   r.1 ≠ Ok Client.Wait ∧
   Client.base r.2 = 1 ∧ Client.next_seq r.2 = 1 ∧ Client.window r.2 = ∅ ∧
   Forall control_packet (Client.sent r.2)) ∧
  (∀ packet sq a fl d,
     parse_packet packet = Ok (sq, a, fl, d) →
     Client.run_client file_data window_size [Datagram packet]
     = (Ok Client.Teardown,
        Client.State 1 1 ∅
          ([wire 0 0 SYN_FLAG []]
           ++ (if is_flag_set fl (Z.lor SYN_FLAG ACK_FLAG)
               then [wire 0 0 ACK_FLAG []] else [])
           ++ [wire 0 0 FIN_FLAG []]))).
Proof.
  intros Hlen.
  assert (Htot : Client.total_packets file_data ≤ 1).
  { unfold Client.total_packets, MAX_DATA_SIZE.
    apply Z.lt_succ_r, Z.div_lt_upper_bound; lia. }
  assert (Hstart : Client.start Client.init
                   = (Ok Client.Handshake, Client.State 1 1 ∅ [wire 0 0 SYN_FLAG []]))
    by reflexivity.
  assert (Hidle : idle (Client.State 1 1 ∅ [wire 0 0 SYN_FLAG []])).
  { split_and!; try done. apply Forall_singleton. by left. }
  split_and!; [exact Htot| |].
  - intros r. subst r. unfold Client.run_client. monad_simpl. rewrite Hstart.
    cbn beta iota.
    by apply (client_steps_idle file_data window_size evs Client.Handshake _ Htot).
  - intros packet sq a fl d Hparse.
    unfold Client.run_client. monad_simpl. rewrite Hstart. cbn beta iota.
    cbn [Client.client_steps Client.terminal Client.client_step]. monad_simpl.
    rewrite Hparse. cbn beta iota.
    destruct (is_flag_set fl _); cbn beta iota.
    + change (create_packet 0 0 ACK_FLAG []) with (Ok (wire 0 0 ACK_FLAG [])).
      unfold Client.send_packet at 1. monad_simpl.
      rewrite transfer_loop_exit by (cbn; lia). reflexivity.
    + rewrite transfer_loop_exit by (cbn; lia). reflexivity.
Qed.

Lemma single_segment_sends_no_data_witness :
  Client.run_client [Byte.x41; Byte.x42] 3 [Datagram (wire 0 0 3 [])]
  = (Ok Client.Teardown,
     Client.State 1 1 ∅
       [wire 0 0 SYN_FLAG []; wire 0 0 ACK_FLAG []; wire 0 0 FIN_FLAG []]).
Proof.
  pose proof (single_segment_sends_no_data [Byte.x41; Byte.x42] 3 []) as H.
  destruct H as (_ & _ & H); [simpl; lia|].
  apply (H (wire 0 0 3 []) 0 0 3 []). reflexivity.
Defined.

(** ** A whole transfer over the lossless transport *)

(** C1 at a 2000-byte payload, capacity 3, no fault injection:
    [total_packets] is 3 = ceil(2000 / 994), but [send_window] sends the
    packet of sequence 1 with the second chunk and the packet of sequence 2
    with the third, and nothing else; the sender closes normally and the
    receiver has reassembled the last 1006 bytes only, not the payload.
    ([retransmit_packets] pairs sequence [k] with chunk [k], see
    [retransmit_packets_ok]; [send_window_body_ok] has the shift of
    [send_window] for every payload.) *)
Theorem lossless_transfer_loses_first_chunk :
  let fd := sample_payload 2000 in
  let w := Lossless.transfer fd 3 None 5 in
  length fd = 2000%nat ∧
  Client.total_packets fd = 3 ∧
  Lossless.client_ctl w = Ok Client.Closed ∧
  Lossless.server_ctl w = Ok true ∧
  Client.sent (Lossless.client w)
    = [wire 0 0 SYN_FLAG []; wire 0 0 ACK_FLAG [];
       wire 1 0 0 (chunk fd 2); wire 2 0 0 (chunk fd 3);
       wire 0 0 FIN_FLAG []] ∧
  Server.file_data (Lossless.server w) = chunk fd 2 ++ chunk fd 3 ∧
  length (Server.file_data (Lossless.server w)) = 1006%nat ∧
  Server.file_data (Lossless.server w) ≠ fd.
Proof.
  split_and!; try (vm_compute; reflexivity).
  intros H. apply (f_equal length) in H. vm_compute in H. discriminate.
Qed.

(** C4 at the same transfer: the loop of line 292 is left with
    [base = 3 = total_packets], after the ACKs of 1 and 2; the receiver never
    acknowledged (nor accepted) a segment 3, its [expected_seq] is still 3. *)
Theorem transfer_loop_exits_before_last_ack :
  let fd := sample_payload 2000 in
  let w := Lossless.transfer fd 3 None 5 in
  Client.total_packets fd = 3 ∧
  Lossless.client_ctl (Lossless.transfer fd 3 None 3) = Ok Client.Wait ∧
  Lossless.client_ctl (Lossless.transfer fd 3 None 4) = Ok Client.Teardown ∧
  Lossless.client_ctl w = Ok Client.Closed ∧
  Client.base (Lossless.client w) = 3 ∧
  Server.sent (Lossless.server w)
    = [wire 0 0 (Z.lor SYN_FLAG ACK_FLAG) []; wire 0 1 ACK_FLAG [];
       wire 0 2 ACK_FLAG []; wire 0 0 (Z.lor FIN_FLAG ACK_FLAG) []] ∧
  Server.expected_seq (Lossless.server w) = 3.
Proof. split_and!; vm_compute; reflexivity. Qed.

(** * Further properties of the engine *)

(** ** Codec *)

Lemma be16_of_bytes (hi lo : Byte.byte) :
  be16 (256 * Z_of_byte hi + Z_of_byte lo) = [hi; lo].
Proof.
  pose proof (Z_of_byte_range hi). pose proof (Z_of_byte_range lo).
  unfold be16.
  replace ((256 * Z_of_byte hi + Z_of_byte lo) / 256) with (Z_of_byte hi)
    by (apply (Z.div_unique _ 256 _ (Z_of_byte lo)); lia).
  replace ((256 * Z_of_byte hi + Z_of_byte lo) mod 256) with (Z_of_byte lo)
    by (apply (Z.mod_unique _ 256 (Z_of_byte hi)); lia).
  by rewrite !byte_of_Z_of_byte.
Qed.

Lemma create_packet_Ok (s a f : Z) (data packet : bytes) :
  create_packet s a f data = Ok packet →
  packet = wire s a f data ∧ 0 ≤ s ≤ 65535 ∧ 0 ≤ a ≤ 65535 ∧ 0 ≤ f ≤ 65535.
Proof.
  unfold create_packet, pack_HHH, pack_H.
  destruct (Z.leb_spec 0 s), (Z.leb_spec s 65535); try discriminate;
  destruct (Z.leb_spec 0 a), (Z.leb_spec a 65535); try discriminate;
  destruct (Z.leb_spec 0 f), (Z.leb_spec f 65535); try discriminate.
  cbn. intros [= <-]. by split_and!.
Qed.

Lemma parse_packet_long (packet : bytes) :
  (6 ≤ length packet)%nat →
  ∃ s a f,
    parse_packet packet = Ok (s, a, f, drop 6 packet) ∧
    wire s a f (drop 6 packet) = packet.
Proof.
  intros Hlen.
  destruct packet as [|a1 [|a0 [|b1 [|b0 [|c1 [|c0 data]]]]]]; simpl in Hlen; try lia.
  eexists _, _, _. split.
  - unfold parse_packet, HEADER_SIZE.
    rewrite py_slice_nonneg, py_slice_from_nonneg by lia. reflexivity.
  - cbn [drop skipn]. unfold wire. by rewrite !be16_of_bytes.
Qed.

(** What a successful [parse_packet] says of the buffer. *)
Lemma parse_packet_Ok (packet : bytes) (s a f : Z) (data : bytes) :
  parse_packet packet = Ok (s, a, f, data) →
  (6 ≤ length packet)%nat ∧ data = drop 6 packet ∧ packet = wire s a f data.
Proof.
  intros Hparse.
  destruct (Nat.le_gt_cases 6 (length packet)) as [Hlen|Hlen].
  - destruct (parse_packet_long packet Hlen) as (s' & a' & f' & Hp & Hw).
    rewrite Hp in Hparse. injection Hparse as <- <- <- <-. by split_and!.
  - rewrite parse_packet_short in Hparse by lia. discriminate.
Qed.

(** X1: [parse_packet] accepts every buffer of at least 6 bytes: the payload
    is what follows the sixth byte, the three fields fit 16 bits, and
    [create_packet] on the decoded fields and payload gives the buffer back. *)
Theorem parse_then_create (packet : bytes) :
  (6 ≤ length packet)%nat →
  ∃ s a f,
    parse_packet packet = Ok (s, a, f, drop 6 packet) ∧
    0 ≤ s ≤ 65535 ∧ 0 ≤ a ≤ 65535 ∧ 0 ≤ f ≤ 65535 ∧
    create_packet s a f (drop 6 packet) = Ok packet.
Proof.
  intros Hlen.
  destruct (parse_packet_long packet Hlen) as (s & a & f & Hparse & Hwire).
  exists s, a, f.
  pose proof (parse_packet_fields _ _ _ _ _ Hparse) as (Hs & Ha & Hf).
  split_and!; [exact Hparse|lia..|].
  rewrite create_packet_ok by assumption. by rewrite Hwire.
Qed.

Lemma parse_then_create_witness :
  ∃ s a f,
    parse_packet (wire 7 0 0 [Byte.x41]) = Ok (s, a, f, drop 6 (wire 7 0 0 [Byte.x41])) ∧
    0 ≤ s ≤ 65535 ∧ 0 ≤ a ≤ 65535 ∧ 0 ≤ f ≤ 65535 ∧
    create_packet s a f (drop 6 (wire 7 0 0 [Byte.x41])) = Ok (wire 7 0 0 [Byte.x41]).
Proof. apply (parse_then_create (wire 7 0 0 [Byte.x41])). simpl. lia. Defined.

(** X2: [create_packet] raises [struct.error] exactly when one of the three
    fields is outside 0..65535, whatever the data; otherwise the packet has
    6 bytes more than the data, so at most [PACKET_SIZE] bytes when the data
    has at most [MAX_DATA_SIZE]. *)
Theorem create_packet_range (s a f : Z) (data : bytes) :
  (create_packet s a f data = Raise struct_error
     ↔ ¬ (0 ≤ s ≤ 65535 ∧ 0 ≤ a ≤ 65535 ∧ 0 ≤ f ≤ 65535)) ∧
  ∀ packet, create_packet s a f data = Ok packet →
    Z.of_nat (length packet) = HEADER_SIZE + Z.of_nat (length data) ∧
    (Z.of_nat (length data) ≤ MAX_DATA_SIZE → Z.of_nat (length packet) ≤ PACKET_SIZE).
Proof.
  split.
  - split.
    + intros Hraise (Hs & Ha & Hf). by rewrite create_packet_ok in Hraise.
    + intros Hout. destruct (create_packet s a f data) as [packet|[]] eqn:E.
      * apply create_packet_Ok in E as (_ & ? & ? & ?). tauto.
      * reflexivity.
      * exfalso. revert E. unfold create_packet, pack_HHH, pack_H.
        repeat (destruct (_ && _); cbn); discriminate.
  - intros packet E. apply create_packet_Ok in E as (-> & _).
    unfold wire, PACKET_SIZE, HEADER_SIZE, MAX_DATA_SIZE. cbn [be16 app length]. lia.
Qed.

(** ** Segmentation *)

Lemma concat_chunks (file_data : bytes) (i : nat) :
  concat (chunk file_data <$> seqZ 1 (Z.of_nat i))
  = take (i * Z.to_nat MAX_DATA_SIZE) file_data.
Proof.
  induction i as [|i IH]; [reflexivity|].
  rewrite seqZ_S, fmap_app, concat_app, IH. cbn [fmap list_fmap concat].
  rewrite app_nil_r. unfold chunk.
  replace (Z.to_nat ((1 + Z.of_nat i - 1) * MAX_DATA_SIZE))
    with (i * Z.to_nat MAX_DATA_SIZE)%nat by (unfold MAX_DATA_SIZE; lia).
  rewrite take_take_drop. f_equal. lia.
Qed.

Lemma length_chunk (file_data : bytes) (k : Z) :
  1 ≤ k →
  Z.of_nat (length (chunk file_data k))
  = Z.min MAX_DATA_SIZE (Z.max 0 (Z.of_nat (length file_data) - (k - 1) * MAX_DATA_SIZE)).
Proof.
  intros Hk. unfold chunk, MAX_DATA_SIZE. rewrite length_take, length_drop. lia.
Qed.

(** X3: the slices [file_data[(k-1)*994 : k*994]] for [k] from 1 to
    [total_packets] (the ones [retransmit_packets] pairs with sequence [k])
    cut the payload into consecutive pieces: joined in order they give the
    payload back; [total_packets] is the ceiling of the length over 994; all
    slices before the last have 994 bytes, the last has between 1 and 994,
    and every later one is empty. *)
Theorem slices_cover_payload (file_data : bytes) (k : Z) :
  let n := Client.total_packets file_data in
  let L := Z.of_nat (length file_data) in
  let slice k := py_slice file_data ((k - 1) * MAX_DATA_SIZE) (k * MAX_DATA_SIZE) in
  concat (slice <$> seqZ 1 n) = file_data ∧
  0 ≤ n ∧ (0 < L → (n - 1) * MAX_DATA_SIZE < L) ∧ L ≤ n * MAX_DATA_SIZE ∧
  (1 ≤ k < n → Z.of_nat (length (slice k)) = MAX_DATA_SIZE) ∧
  (1 ≤ k ∧ k = n → 1 ≤ Z.of_nat (length (slice k)) ≤ MAX_DATA_SIZE) ∧
  (n < k → slice k = []).
Proof.
  intros n L slice.
  pose proof (total_packets_ceil file_data) as Hceil. cbv zeta in Hceil.
  fold n L in Hceil.
  assert (Hn : 0 ≤ n) by (unfold MAX_DATA_SIZE in Hceil; lia).
  assert (HL : L ≤ n * MAX_DATA_SIZE) by (unfold MAX_DATA_SIZE in *; lia).
  assert (Hslice : ∀ j, 1 ≤ j → slice j = chunk file_data j).
  { intros j Hj. by apply py_slice_chunk. }
  split_and!; try done.
  - transitivity (concat (chunk file_data <$> seqZ 1 n)).
    { f_equal. apply list_fmap_ext. intros i j Hj. apply Hslice.
      apply lookup_seqZ in Hj. lia. }
    rewrite <- (Z2Nat.id n) by assumption. rewrite concat_chunks.
    apply take_ge. unfold MAX_DATA_SIZE in *. subst L. lia.
  - unfold MAX_DATA_SIZE in *; lia.
  - intros Hk. rewrite Hslice, length_chunk by lia. fold L.
    unfold MAX_DATA_SIZE in *. lia.
  - intros [Hk ->]. rewrite Hslice, length_chunk by lia. fold L.
    unfold MAX_DATA_SIZE in *. lia.
  - intros Hk. rewrite Hslice by lia. unfold chunk.
    rewrite drop_ge; [by rewrite take_nil|]. fold L in HL |- *.
    unfold MAX_DATA_SIZE in *. subst L. lia.
Qed.

(** ** Receiver: every kind of datagram *)

(** One turn of the receiver's loop on a buffer that decodes. *)
Lemma server_step_spec (now : Z) (packet : bytes) (seq ack_num flags : Z)
    (data : bytes) (s : Server.state) :
  parse_packet packet = Ok (seq, ack_num, flags, data) →
  Server.server_step now (Datagram packet) s =
    if is_flag_set flags SYN_FLAG then
      (Ok false, replied now (wire 0 0 (Z.lor SYN_FLAG ACK_FLAG) []) s)
    else if is_flag_set flags ACK_FLAG then (Ok false, Server.start_timer now s)
    else if is_flag_set flags FIN_FLAG then
      (Ok true, replied now (wire 0 0 (Z.lor FIN_FLAG ACK_FLAG) []) s)
    else if bool_decide (Server.discard_seq s = Some seq) then
      (Ok false, Server.clear_discard (Server.start_timer now s))
    else if seq =? Server.expected_seq s then (Ok false, accepted now seq data s)
    else (Ok false, Server.start_timer now s).
Proof.
  intros Hparse.
  destruct (is_flag_set flags SYN_FLAG) eqn:Hsyn;
    [|destruct (is_flag_set flags ACK_FLAG) eqn:Hack;
      [|destruct (is_flag_set flags FIN_FLAG) eqn:Hfin]].
  4: { apply (server_step_data _ _ _ _ _ _ _ Hparse). by split_and!. }
  all: destruct (start_timer_fields now s) as (Hfd & Hex & Hdi & Hse).
  all: unfold Server.server_step; monad_simpl; rewrite Hparse; cbn beta iota.
  all: rewrite ?Hsyn, ?Hack, ?Hfin; cbn beta iota; try reflexivity.
  - change (create_packet 0 0 (Z.lor SYN_FLAG ACK_FLAG) [])
      with (Ok (wire 0 0 (Z.lor SYN_FLAG ACK_FLAG) [])).
    unfold Server.sendto, replied. monad_simpl. by rewrite Hfd, Hex, Hdi, Hse.
  - change (create_packet 0 0 (Z.lor FIN_FLAG ACK_FLAG) [])
      with (Ok (wire 0 0 (Z.lor FIN_FLAG ACK_FLAG) [])).
    unfold Server.sendto, replied. monad_simpl. by rewrite Hfd, Hex, Hdi, Hse.
Qed.

(** X4: a datagram with SYN, ACK or FIN set never touches the reassembly:
    [file_data], [expected_seq] and [discard_seq] stay as they are, even if
    it carries a payload or the expected sequence number.  SYN is tested
    first, then ACK, then FIN: SYN is answered with SYN|ACK (also together
    with FIN, which then does not end the loop); ACK without SYN gets no
    reply (so FIN|ACK does not end the loop either); FIN alone is answered
    with FIN|ACK and ends the loop. *)
Theorem control_datagram_keeps_data (now : Z) (packet : bytes)
    (seq ack_num flags : Z) (data : bytes) (s : Server.state) :
  parse_packet packet = Ok (seq, ack_num, flags, data) →
  ¬ data_flags flags →
  let r := Server.server_step now (Datagram packet) s in
  Server.file_data r.2 = Server.file_data s ∧
  Server.expected_seq r.2 = Server.expected_seq s ∧
  Server.discard_seq r.2 = Server.discard_seq s ∧
  r = (if is_flag_set flags SYN_FLAG then
         (Ok false, replied now (wire 0 0 (Z.lor SYN_FLAG ACK_FLAG) []) s)
       else if is_flag_set flags ACK_FLAG then (Ok false, Server.start_timer now s)
       else (Ok true, replied now (wire 0 0 (Z.lor FIN_FLAG ACK_FLAG) []) s)).
Proof.
  intros Hparse Hctl r. subst r.
  destruct (start_timer_fields now s) as (Hfd & Hex & Hdi & Hse).
  rewrite (server_step_spec _ _ _ _ _ _ _ Hparse).
  destruct (is_flag_set flags SYN_FLAG) eqn:Hsyn; [by split_and!|].
  destruct (is_flag_set flags ACK_FLAG) eqn:Hack; [by split_and!|].
  destruct (is_flag_set flags FIN_FLAG) eqn:Hfin; [by split_and!|].
  exfalso. apply Hctl. by split_and!.
Qed.

Lemma control_datagram_keeps_data_witness :
  let s := Server.State [Byte.x41] 2 (Some 2) (Some 0) [] in
  Server.server_step 7 (Datagram (wire 2 0 (Z.lor FIN_FLAG ACK_FLAG) [Byte.x42])) s
  = (Ok false, s).
Proof.
  intros s.
  pose proof (control_datagram_keeps_data 7
                (wire 2 0 (Z.lor FIN_FLAG ACK_FLAG) [Byte.x42])
                2 0 (Z.lor FIN_FLAG ACK_FLAG) [Byte.x42] s) as H.
  destruct H as (_ & _ & _ & H); [reflexivity | by intros (_ & ? & _) | exact H].
Defined.

(** ** Receiver: runs *)

Lemma serve_cons (now : Z) (ev : event) (evs : list (Z * event)) (s : Server.state) :
  Server.serve ((now, ev) :: evs) s =
    match Server.server_step now ev s with
    | (Ok true, s') => (Ok true, s')
    | (Ok false, s') => Server.serve evs s'
    | (Raise e, s') => (Raise e, s')
    end.
Proof.
  cbn [Server.serve]. monad_simpl.
  by destruct (Server.server_step now ev s) as [[[]|e] s'].
Qed.

(** A property of the receiver's variables that every turn keeps, for the
    outcomes that satisfy [P], holds after the loop. *)
Lemma serve_inv (P : event → Prop) (I : Server.state → Prop) :
  (∀ now ev s, P ev → I s → I (Server.server_step now ev s).2) →
  ∀ evs s, Forall (λ x, P x.2) evs → I s → I (Server.serve evs s).2.
Proof.
  intros Hstep evs. induction evs as [|[now ev] evs IH]; intros s Hall Hs; [exact Hs|].
  apply Forall_cons in Hall as [Hev Hall]. rewrite serve_cons.
  specialize (Hstep now ev s Hev Hs).
  destruct (Server.server_step now ev s) as [[[]|e] s']; cbn [snd] in *; try done.
  by apply IH.
Qed.

(** Splits one turn of the receiver into its kinds of outcome. *)
Ltac server_step_cases now ev s :=
  let packet := fresh "packet" in
  let Hparse := fresh "Hparse" in
  destruct ev as [packet|];
  [ destruct (parse_packet packet) as [[[[? ?] ?] ?]|?] eqn:Hparse;
    [ rewrite (server_step_spec now _ _ _ _ _ s Hparse);
      repeat match goal with
        | |- context [if ?b then _ else _] => destruct b eqn:?
        end
    | unfold Server.server_step; monad_simpl; rewrite Hparse; cbn beta iota ]
  | unfold Server.server_step; monad_simpl ].

Lemma start_timer_twice (now1 now2 : Z) (s : Server.state) :
  Server.start_timer now2 (Server.start_timer now1 s) = Server.start_timer now1 s.
Proof.
  unfold Server.start_timer.
  destruct (Server.start_time s) eqn:E; simpl; by rewrite ?E.
Qed.

Lemma discard_stays_cleared (evs : list (Z * event)) (s : Server.state) :
  Server.discard_seq s = None → Server.discard_seq (Server.serve evs s).2 = None.
Proof.
  intros Hs. apply (serve_inv (λ _, True)); [|by apply Forall_true|exact Hs].
  clear. intros now ev s _ Hs.
  destruct (start_timer_fields now s) as (_ & _ & Hdi & _).
  server_step_cases now ev s; cbn [snd replied accepted Server.clear_discard
    Server.discard_seq]; congruence.
Qed.

(** X5: the fault injection drops once.  A data datagram whose sequence is
    the pending [discard_seq] is consumed without ACK, append or increment of
    [expected_seq], and [discard_seq] is cleared; the same datagram, when it
    comes again, is accepted if its sequence is the expected one (and left
    out as out of order if not); nothing is dropped by the hook ever after. *)
Theorem discard_drops_once (now1 now2 : Z) (packet : bytes)
    (seq ack_num flags : Z) (data : bytes) (s : Server.state) :
  parse_packet packet = Ok (seq, ack_num, flags, data) →
  data_flags flags →
  Server.discard_seq s = Some seq →
  let s1 := Server.clear_discard (Server.start_timer now1 s) in
  Server.server_step now1 (Datagram packet) s = (Ok false, s1) ∧
  Server.file_data s1 = Server.file_data s ∧
  Server.expected_seq s1 = Server.expected_seq s ∧
  Server.sent s1 = Server.sent s ∧
  Server.server_step now2 (Datagram packet) s1
    = (if seq =? Server.expected_seq s then (Ok false, accepted now2 seq data s1)
       else (Ok false, s1)) ∧
  ∀ evs, Server.discard_seq (Server.serve evs s1).2 = None.
Proof.
  intros Hparse Hdata Hdiscard s1.
  destruct (start_timer_fields now1 s) as (Hfd & Hex & Hdi & Hse).
  split_and!; try done.
  - rewrite (server_step_data _ _ _ _ _ _ _ Hparse Hdata).
    by rewrite bool_decide_eq_true_2.
  - rewrite (server_step_data _ _ _ _ _ _ _ Hparse Hdata).
    assert (Hst : Server.start_timer now2 s1 = s1).
    { subst s1. unfold Server.start_timer, Server.clear_discard.
      destruct (Server.start_time s) eqn:E; simpl; by rewrite ?E. }
    rewrite Hst. cbn [s1 Server.clear_discard Server.discard_seq Server.expected_seq].
    rewrite Hex. by rewrite bool_decide_eq_false_2.
  - intros evs. by apply discard_stays_cleared.
Qed.

Lemma discard_drops_once_witness :
  let p := wire 1 0 0 [Byte.x41] in
  Server.serve [(7, Datagram p); (8, Datagram p)] (Server.init (Some 1))
  = (Ok false, Server.State [Byte.x41] 2 None (Some 7) [wire 0 1 ACK_FLAG []]).
Proof.
  intros p.
  pose proof (discard_drops_once 7 8 p 1 0 0 [Byte.x41] (Server.init (Some 1))) as H.
  destruct H as (H1 & _ & _ & _ & H2 & _); [reflexivity | by split_and! | reflexivity |].
  rewrite serve_cons, H1. cbn beta iota. rewrite serve_cons, H2. reflexivity.
Defined.

Lemma ack_numbers_snoc (log : list bytes) (p : bytes) :
  ack_numbers (log ++ [p]) = ack_numbers log ++ ack_numbers [p].
Proof. apply omap_app. Qed.

Lemma ack_numbers_ack (seq : Z) :
  0 ≤ seq ≤ 65535 → ack_numbers [wire 0 seq ACK_FLAG []] = [seq].
Proof.
  intros Hseq. unfold ack_numbers. cbn [omap list_omap].
  rewrite parse_packet_header by (apply ACK_FLAG_range || lia).
  by rewrite Z.eqb_refl.
Qed.

Lemma seqZ_snoc (m n : Z) : 0 ≤ n → seqZ m (n + 1) = seqZ m n ++ [m + n].
Proof.
  intros Hn. rewrite seqZ_app by lia. reflexivity.
Qed.

Lemma server_step_acks_in_order (now : Z) (ev : event) (s : Server.state) :
  acks_in_order s → acks_in_order (Server.server_step now ev s).2.
Proof.
  intros (Hex1 & Hacks).
  destruct (start_timer_fields now s) as (_ & Hex & _ & Hse).
  server_step_cases now ev s; cbn [snd]; unfold acks_in_order;
    cbn [replied accepted Server.clear_discard Server.expected_seq Server.sent];
    rewrite ?Hex, ?Hse, ?ack_numbers_snoc; try done.
  - split; [done|]. by rewrite Hacks, app_nil_r.
  - split; [done|]. by rewrite Hacks, app_nil_r.
  - pose proof (parse_packet_fields _ _ _ _ _ Hparse) as (Hseq & _ & _).
    match goal with H : (_ =? _) = true |- _ => apply Z.eqb_eq in H; subst end.
    split; [lia|]. rewrite ack_numbers_ack, Hacks by lia.
    replace (Server.expected_seq s + 1 - 1) with (Server.expected_seq s - 1 + 1) by lia.
    rewrite seqZ_snoc by lia. do 2 f_equal. lia.
Qed.

(** X6: whatever arrives, the receiver acknowledges the sequence numbers 1,
    2, 3, ... each once and in this order: the numbers of the pure ACK
    packets it has sent are exactly 1 up to [expected_seq - 1].  It never
    repeats an acknowledgment (an out-of-order or duplicate data packet gets
    no reply at all), and [expected_seq] stays between 1 and 65536. *)
Theorem receiver_acks_in_order (discard : option Z) (evs : list (Z * event)) :
  let s := (Server.run_server discard evs).2 in
  1 ≤ Server.expected_seq s ≤ 65536 ∧
  ack_numbers (Server.sent s) = seqZ 1 (Server.expected_seq s - 1) ∧
  NoDup (ack_numbers (Server.sent s)).
Proof.
  intros s.
  assert (Hinv : acks_in_order s).
  { subst s. unfold Server.run_server.
    apply (serve_inv (λ _, True)); [|by apply Forall_true|].
    - intros now ev s0 _. apply server_step_acks_in_order.
    - split; [cbn; lia|reflexivity]. }
  destruct Hinv as (Hex & Hacks). split_and!; try lia; [exact Hacks|].
  rewrite Hacks. apply NoDup_seqZ.
Qed.

(** X7: the receiver only ever appends to [file_data], and [expected_seq]
    never goes down.  When every buffer has at most [PACKET_SIZE] bytes, as
    [recvfrom(PACKET_SIZE)] returns them, each accepted packet adds at most
    [MAX_DATA_SIZE] bytes. *)
Theorem file_data_append_only (evs : list (Z * event)) (s : Server.state) :
  Forall (λ x, buffer_at_most (Z.to_nat PACKET_SIZE) x.2) evs →
  let s' := (Server.serve evs s).2 in
  Server.file_data s `prefix_of` Server.file_data s' ∧
  Server.expected_seq s ≤ Server.expected_seq s' ∧
  Z.of_nat (length (Server.file_data s'))
    ≤ Z.of_nat (length (Server.file_data s))
      + MAX_DATA_SIZE * (Server.expected_seq s' - Server.expected_seq s).
Proof.
  intros Hall s'. subst s'.
  apply (serve_inv (buffer_at_most (Z.to_nat PACKET_SIZE))
           (λ s', Server.file_data s `prefix_of` Server.file_data s' ∧
                  Server.expected_seq s ≤ Server.expected_seq s' ∧
                  Z.of_nat (length (Server.file_data s'))
                    ≤ Z.of_nat (length (Server.file_data s))
                      + MAX_DATA_SIZE * (Server.expected_seq s' - Server.expected_seq s)));
    [|exact Hall|split_and!; [done|lia|unfold MAX_DATA_SIZE; lia]].
  clear. intros now ev s0 Hev (Hpre & Hex0 & Hlen).
  destruct (start_timer_fields now s0) as (Hfd & Hex & _ & _).
  server_step_cases now ev s0; cbn [snd];
    cbn [replied accepted Server.clear_discard Server.expected_seq Server.file_data];
    rewrite ?Hex, ?Hfd; try done.
  pose proof (parse_packet_Ok _ _ _ _ _ Hparse) as (Hlen6 & -> & _).
  split_and!; [by apply prefix_app_r | lia |].
  rewrite length_app, length_drop. cbn in Hev.
  unfold PACKET_SIZE, HEADER_SIZE, MAX_DATA_SIZE in *. lia.
Qed.

Lemma file_data_append_only_witness :
  let s' := (Server.serve [(7, Datagram (wire 1 0 0 [Byte.x41]))] (Server.init None)).2 in
  Server.file_data (Server.init None) `prefix_of` Server.file_data s'.
Proof.
  intros s'.
  pose proof (file_data_append_only [(7, Datagram (wire 1 0 0 [Byte.x41]))]
                (Server.init None)) as H.
  destruct H as (H & _).
  - apply Forall_singleton. cbn [snd buffer_at_most].
    change (length (wire 1 0 0 [Byte.x41])) with 7%nat.
    unfold PACKET_SIZE, HEADER_SIZE, MAX_DATA_SIZE. lia.
  - exact H.
Defined.

(** X8: the receiver's loop raises on nothing but a short buffer: when every
    buffer has at least 6 bytes, the loop returns (it was left by [break] or
    has handled every outcome), whatever the flags, sequence numbers and
    payloads. *)
Theorem receiver_raises_only_on_short (evs : list (Z * event)) (s : Server.state) :
  Forall (λ x, buffer_at_least 6 x.2) evs →
  ∃ stopped, (Server.serve evs s).1 = Ok stopped.
Proof.
  revert s. induction evs as [|[now ev] evs IH]; intros s Hall; [by exists false|].
  apply Forall_cons in Hall as [Hev Hall]. rewrite serve_cons.
  assert (Hstep : ∃ b, (Server.server_step now ev s).1 = Ok b).
  { destruct ev as [packet|]; [|by exists false].
    destruct (parse_packet_long packet Hev) as (sq & a & f & Hparse & _).
    rewrite (server_step_spec _ _ _ _ _ _ _ Hparse).
    repeat match goal with
      | |- context [if ?b then _ else _] => destruct b
      end; by eexists. }
  destruct Hstep as [b Hb].
  destruct (Server.server_step now ev s) as [[[]|e] s']; cbn [fst] in *; try done.
  - by exists true.
  - by apply IH.
Qed.

Lemma receiver_raises_only_on_short_witness :
  ∃ stopped,
    (Server.serve [(7, Datagram (wire 0 0 FIN_FLAG []))] (Server.init None)).1
    = Ok stopped.
Proof.
  apply (receiver_raises_only_on_short [(7, Datagram (wire 0 0 FIN_FLAG []))]).
  apply Forall_singleton. cbn. lia.
Defined.

(** ** Sender: handshake and teardown *)

Lemma client_steps_terminal (file_data : bytes) (window_size : Z)
    (ph : Client.phase) (evs : list event) (s : Client.state) :
  Client.terminal ph = true →
  Client.client_steps file_data window_size ph evs s = (Ok ph, s).
Proof. intros Hph. destruct evs; cbn [Client.client_steps]; by rewrite ?Hph. Qed.

Lemma client_steps_cons (file_data : bytes) (window_size : Z)
    (ph : Client.phase) (ev : event) (evs : list event) (s : Client.state) :
  Client.terminal ph = false →
  Client.client_steps file_data window_size ph (ev :: evs) s =
    match Client.client_step file_data window_size ph ev s with
    | (Ok ph', s') => Client.client_steps file_data window_size ph' evs s'
    | (Raise e, s') => (Raise e, s')
    end.
Proof. intros Hph. cbn [Client.client_steps]. by rewrite Hph. Qed.

(** X9: when the first [recvfrom] of the sender times out, the run ends as
    failed with SYN as the only packet ever sent: no retry, no data, no FIN,
    whatever arrives later. *)
Theorem handshake_timeout_fails (file_data : bytes) (window_size : Z)
    (evs : list event) :
  Client.run_client file_data window_size (Timeout :: evs)
  = (Ok Client.Failed, Client.State 1 1 ∅ [wire 0 0 SYN_FLAG []]).
Proof.
  unfold Client.run_client. monad_simpl.
  change (Client.start Client.init)
    with (Ok Client.Handshake, Client.State 1 1 ∅ [wire 0 0 SYN_FLAG []]).
  cbn beta iota. rewrite client_steps_cons by reflexivity.
  cbn [Client.client_step]. monad_simpl. by apply client_steps_terminal.
Qed.

Lemma teardown_timeout (file_data : bytes) (window_size : Z) (s : Client.state) :
  Client.client_step file_data window_size Client.Teardown Timeout s
  = (Ok Client.Teardown,
     Client.State (Client.base s) (Client.next_seq s) (Client.window s)
       (Client.sent s ++ [wire 0 0 FIN_FLAG []])).
Proof. reflexivity. Qed.

Lemma teardown_timeouts (file_data : bytes) (window_size : Z)
    (n : nat) (evs : list event) (s : Client.state) :
  Client.client_steps file_data window_size Client.Teardown
    (replicate n Timeout ++ evs) s
  = Client.client_steps file_data window_size Client.Teardown evs
      (Client.State (Client.base s) (Client.next_seq s) (Client.window s)
         (Client.sent s ++ replicate n (wire 0 0 FIN_FLAG []))).
Proof.
  revert s. induction n as [|n IH]; intros s.
  - cbn [replicate app]. rewrite app_nil_r. by destruct s.
  - cbn [replicate app]. rewrite client_steps_cons, teardown_timeout by reflexivity.
    rewrite IH. cbn [Client.base Client.next_seq Client.window Client.sent].
    by rewrite <- app_assoc.
Qed.

(** X10: the teardown retries without bound: [n] timeouts in a row while
    waiting for FIN|ACK send [n] more FIN packets and leave the sender
    waiting, for every [n]; nothing else changes, and a FIN|ACK after them
    still closes the connection. *)
Theorem teardown_retries_forever (file_data : bytes) (window_size : Z)
    (n : nat) (s : Client.state) :
  let s' := Client.State (Client.base s) (Client.next_seq s) (Client.window s)
              (Client.sent s ++ replicate n (wire 0 0 FIN_FLAG [])) in
  Client.client_steps file_data window_size Client.Teardown (replicate n Timeout) s
    = (Ok Client.Teardown, s') ∧
  Client.client_steps file_data window_size Client.Teardown
      (replicate n Timeout ++ [Datagram (wire 0 0 (Z.lor FIN_FLAG ACK_FLAG) [])]) s
    = (Ok Client.Closed, s').
Proof.
  intros s'. split.
  - rewrite <- (app_nil_r (replicate n Timeout)). by rewrite teardown_timeouts.
  - by rewrite teardown_timeouts.
Qed.

(** ** Sender: the wait loop *)

Lemma slide_window_keeps (ack_num : Z) (s : Client.state) :
  Client.sent (Client.slide_window ack_num s).2 = Client.sent s ∧
  Client.next_seq (Client.slide_window ack_num s).2 = Client.next_seq s.
Proof.
  unfold Client.slide_window.
  apply (while_inv (λ s', Client.sent s' = Client.sent s ∧
                          Client.next_seq s' = Client.next_seq s)); [|done].
  intros s0 Hs0 _. monad_simpl. unfold Client.window_remove_base.
  by case_bool_decide.
Qed.

(** X11: an acknowledgment for a number that was never in flight stops the
    sender.  In the wait loop, with the window as the run keeps it, a packet
    with the ACK flag and [ack_num >= next_seq] makes the slide remove all of
    [base .. next_seq - 1] and then raise [KeyError] at [window.remove]; the
    exception is not caught, [base] is left at [next_seq], and no packet is
    sent. *)
Theorem ack_beyond_window_raises (file_data : bytes) (window_size : Z)
    (packet : bytes) (sq ack_num flags : Z) (data : bytes) (s : Client.state) :
  window_inv window_size s →
  parse_packet packet = Ok (sq, ack_num, flags, data) →
  is_flag_set flags ACK_FLAG = true →
  Client.next_seq s ≤ ack_num →
  let r := Client.client_step file_data window_size Client.Wait (Datagram packet) s in
  r.1 = Raise KeyError ∧
  Client.base r.2 = Client.next_seq s ∧
  Client.next_seq r.2 = Client.next_seq s ∧
  Client.sent r.2 = Client.sent s.
Proof.
  intros Hinv Hparse Hack Hbeyond r. subst r.
  pose proof (slide_window_KeyError window_size ack_num s Hinv Hbeyond) as [Hr Hb].
  pose proof (slide_window_keeps ack_num s) as [Hsent Hnext].
  destruct Hinv as (_ & Hle & _).
  cbn [Client.client_step]. monad_simpl. rewrite Hparse. cbn beta iota.
  rewrite Hack. destruct (Z.leb_spec (Client.base s) ack_num); [|lia]. cbn [andb].
  destruct (Client.slide_window ack_num s) as [[[]|e1] s1]; cbn [fst snd] in *;
    [discriminate|]. injection Hr as ->. split_and!; done.
Qed.

Lemma ack_beyond_window_raises_witness :
  let r := Client.client_step [] 3 Client.Wait (Datagram (wire 0 7 ACK_FLAG []))
             (Client.State 1 4 {[1; 2; 3]} []) in
  r.1 = Raise KeyError ∧ Client.base r.2 = 4.
Proof.
  intros r.
  pose proof (ack_beyond_window_raises [] 3 (wire 0 7 ACK_FLAG []) 0 7 ACK_FLAG []
                (Client.State 1 4 {[1; 2; 3]} [])) as H.
  destruct H as (H1 & H2 & _); [|reflexivity|reflexivity|cbn; lia|by split].
  unfold window_inv. cbn [Client.base Client.next_seq Client.window].
  split_and!; try lia. intros k. rewrite !elem_of_union, !elem_of_singleton. lia.
Defined.

Lemma while_cond_false {St} (fuel : nat) (cond : St → bool) (body : M St ()) (s : St) :
  cond s = false → while fuel cond body s = (Ok (), s).
Proof. intros Hc. destruct fuel; [reflexivity|]. by rewrite while_unfold, Hc. Qed.

(** X12: a send round fills the window for good: when [send_window] has
    returned, calling it again at once sends nothing and changes nothing.
    So the call at the head of the loop after a timeout adds no packet to
    what [retransmit_packets] has resent. *)
Theorem send_window_twice (file_data : bytes) (window_size : Z) (s : Client.state) :
  (Client.send_window file_data window_size s).1 = Ok () →
  Client.send_window file_data window_size
    (Client.send_window file_data window_size s).2
  = (Ok (), (Client.send_window file_data window_size s).2).
Proof.
  intros Hok. pose proof (send_window_exits file_data window_size s Hok) as Hc.
  unfold Client.send_window at 1. by apply while_cond_false.
Qed.

Lemma send_window_twice_witness :
  let s := Client.State 1 1 ∅ [] in
  let fd := replicate 3000 Byte.x00 in
  Client.send_window fd 3 (Client.send_window fd 3 s).2
  = (Ok (), (Client.send_window fd 3 s).2).
Proof.
  intros s fd. apply (send_window_twice fd 3 s). reflexivity.
Defined.

(** ** Sender: what goes on the wire *)

Lemma for_each_inv_Forall {St A} (I : St → Prop) (P : A → Prop) (body : A → M St ()) :
  (∀ x s, P x → I s → I (body x s).2) →
  ∀ xs s, Forall P xs → I s → I (for_each xs body s).2.
Proof.
  intros Hbody xs. induction xs as [|x xs IH]; intros s Hall Hs; [exact Hs|].
  apply Forall_cons in Hall as [Hx Hall]. cbn [for_each]. monad_simpl.
  specialize (Hbody x s Hx Hs). destruct (body x s) as [[[]|e1] s1]; simpl in *.
  - by apply IH.
  - exact Hbody.
Qed.

Lemma preserves_lift_bind {St A B} (I : St → Prop) (r : result A) (k : A → M St B) :
  (∀ a, r = Ok a → preserves I (k a)) → preserves I (lift r ≫= k).
Proof.
  intros Hk s Hs. monad_simpl. destruct r as [a|e1]; cbn [snd]; [|exact Hs].
  by apply Hk.
Qed.

Section sender_log.

Variable file_data : bytes.
Variable window_size : Z.
Hypothesis two_segments : 2 ≤ Client.total_packets file_data.

Local Abbreviation kept := (sender_inv file_data).

Lemma sender_inv_send (p : bytes) (s : Client.state) :
  sender_packet file_data p → kept s → kept (Client.send_packet p s).2.
Proof.
  intros Hp (Hb & Hn & Hlog). unfold sender_inv.
  cbn [Client.send_packet modify snd Client.base Client.next_seq Client.sent].
  split_and!; [done || lia..|].
  apply Forall_app. split; [done|]. by apply Forall_singleton.
Qed.

Lemma send_control_kept (flags : Z) (s : Client.state) :
  control_packet (wire 0 0 flags []) →
  kept s →
  kept ((lift (create_packet 0 0 flags []) ≫= Client.send_packet) s).2.
Proof.
  intros Hctl Hs. apply (preserves_lift_bind kept); [|exact Hs].
  intros p Hp s0 Hs0. apply create_packet_Ok in Hp as (-> & _).
  apply sender_inv_send; [by left|done].
Qed.

Lemma add_next_kept (s : Client.state) :
  Client.next_seq s ≤ Client.total_packets file_data →
  kept s → kept (Client.add_next s).
Proof.
  intros Hn (Hb & Hns & Hlog). split_and!; cbn [Client.add_next Client.base
    Client.next_seq Client.sent]; (done || lia).
Qed.

Lemma send_window_body_kept (s : Client.state) :
  kept s →
  Client.send_window_cond file_data window_size s = true →
  kept (Client.send_window_body file_data s).2.
Proof.
  intros Hs Hcond. pose proof Hs as (Hb & Hn & Hlog).
  unfold Client.send_window_cond in Hcond.
  apply andb_true_iff in Hcond as [_ Hc]. apply Z.leb_le in Hc.
  unfold Client.send_window_body. monad_simpl.
  destruct (Z.ltb_spec (Client.next_seq s - 1) 1) as [Hskip|Hskip]; cbn beta iota.
  - assert (Hone : Client.next_seq s = 1) by lia.
    pose proof (add_next_kept s Hc Hs) as Hs1.
    destruct (create_packet _ 0 0 _) as [p|e1] eqn:Hp; cbn beta iota; [|exact Hs1].
    apply create_packet_Ok in Hp as (-> & _).
    apply add_next_kept; [cbn [Client.send_packet Client.add_next Client.next_seq
      modify snd]; lia|].
    apply sender_inv_send; [|exact Hs1].
    right. exists 1. split; [lia|]. left.
    cbn [Client.add_next Client.next_seq]. rewrite Hone.
    rewrite py_slice_chunk by lia. reflexivity.
  - destruct (create_packet _ 0 0 _) as [p|e1] eqn:Hp; cbn beta iota; [|exact Hs].
    apply create_packet_Ok in Hp as (-> & _).
    apply add_next_kept; [cbn [Client.send_packet modify snd Client.next_seq]; lia|].
    apply sender_inv_send; [|exact Hs].
    right. exists (Client.next_seq s - 1). split; [lia|]. left.
    rewrite py_slice_chunk by lia. do 2 f_equal. lia.
Qed.

Lemma send_window_kept : preserves kept (Client.send_window file_data window_size).
Proof.
  intros s Hs. unfold Client.send_window. apply while_inv; [|exact Hs].
  intros. by apply send_window_body_kept.
Qed.

Lemma slide_window_kept (ack_num : Z) : preserves kept (Client.slide_window ack_num).
Proof.
  intros s Hs. unfold Client.slide_window. apply while_inv; [|exact Hs].
  intros s0 (Hb & Hn & Hlog) _. monad_simpl. unfold Client.window_remove_base.
  case_bool_decide; cbn [snd]; [|done].
  split_and!; cbn [Client.incr_base Client.base Client.next_seq Client.sent];
    (done || lia).
Qed.

Lemma retransmit_packets_kept : preserves kept (Client.retransmit_packets file_data).
Proof.
  intros s Hs. pose proof Hs as (Hb & Hn & Hlog). unfold Client.retransmit_packets.
  apply (for_each_inv_Forall kept (λ k, 1 ≤ k < Client.total_packets file_data));
    [| apply Forall_seqZ; intros k Hk; lia | exact Hs].
  intros k s0 Hk Hs0. apply (preserves_lift_bind kept); [|exact Hs0].
  intros p Hp s1 Hs1. apply create_packet_Ok in Hp as (-> & _).
  apply sender_inv_send; [|exact Hs1].
  right. exists k. split; [done|]. right. by rewrite py_slice_chunk by lia.
Qed.

Lemma control_flags (flags : Z) :
  flags = SYN_FLAG ∨ flags = ACK_FLAG ∨ flags = FIN_FLAG →
  control_packet (wire 0 0 flags []).
Proof. intros [->|[->| ->]]; [by left | right; by left | right; by right]. Qed.

Lemma send_control_preserves {A} (flags : Z) (k : M Client.state A) :
  flags = SYN_FLAG ∨ flags = ACK_FLAG ∨ flags = FIN_FLAG →
  preserves kept k →
  preserves kept (p ← lift (create_packet 0 0 flags []); Client.send_packet p;; k).
Proof.
  intros Hflags Hk. apply preserves_lift_bind. intros p Hp.
  apply create_packet_Ok in Hp as (-> & _).
  apply preserves_bind; [|by intros []].
  intros s Hs. apply sender_inv_send; [left; by apply control_flags|done].
Qed.

Lemma transfer_loop_kept : preserves kept (Client.transfer_loop file_data window_size).
Proof.
  unfold Client.transfer_loop. apply preserves_bind; [apply preserves_gets|].
  intros b. destruct (b <? _).
  - apply preserves_bind; [apply send_window_kept|intros; apply preserves_ret].
  - apply send_control_preserves; [auto|apply preserves_ret].
Qed.

Lemma client_step_kept (ph : Client.phase) (ev : event) :
  preserves kept (Client.client_step file_data window_size ph ev).
Proof.
  destruct ph, ev as [packet|]; cbn [Client.client_step];
    try apply preserves_ret;
    try (apply preserves_bind; [apply preserves_lift|intros [[[? ?] flags] ?]]).
  - apply preserves_bind; [|intros; apply transfer_loop_kept].
    destruct (is_flag_set _ _); [|apply preserves_ret].
    intros s Hs. apply send_control_kept; [apply control_flags; auto|done].
  - apply preserves_bind; [apply preserves_gets|intros b].
    apply preserves_bind; [|intros; apply preserves_ret].
    destruct (_ && _); [|apply preserves_ret].
    apply preserves_bind; [apply slide_window_kept|intros; apply send_window_kept].
  - apply preserves_bind; [apply retransmit_packets_kept|intros; apply transfer_loop_kept].
  - destruct (is_flag_set _ _); apply preserves_ret.
  - apply send_control_preserves; [auto|apply preserves_ret].
Qed.

Lemma client_steps_kept (ph : Client.phase) (evs : list event) :
  preserves kept (Client.client_steps file_data window_size ph evs).
Proof.
  revert ph. induction evs as [|ev evs IH]; intros ph; cbn [Client.client_steps].
  - apply preserves_ret.
  - destruct (Client.terminal ph); [apply preserves_ret|].
    apply preserves_bind; [apply client_step_kept | intros ph'; apply IH].
Qed.

Lemma run_client_kept (evs : list event) :
  kept (Client.run_client file_data window_size evs).2.
Proof.
  unfold Client.run_client.
  apply (preserves_bind kept); [|intros ph; apply client_steps_kept|].
  - unfold Client.start. apply send_control_preserves; [auto|apply preserves_ret].
  - split_and!; cbn; [lia|lia|lia|constructor].
Qed.

End sender_log.

(** X13: in every run of the sender, whatever it receives, each packet it
    sends is SYN, ACK or FIN, or a data packet with [ack_number = 0],
    [flags = 0] and a sequence number [k] with [1 <= k < total_packets]
    whose payload is the chunk [k + 1] (first transmission by [send_window])
    or the chunk [k] (by [retransmit_packets]).  So no data packet ever has
    the sequence number [total_packets], and the first chunk only leaves by
    a retransmission. *)
Theorem sender_packets_on_wire (file_data : bytes) (window_size : Z)
    (evs : list event) :
  Forall (sender_packet file_data)
    (Client.sent (Client.run_client file_data window_size evs).2).
Proof.
  destruct (Z.le_gt_cases 2 (Client.total_packets file_data)) as [Htwo|Hone].
  - by apply run_client_kept.
  - assert (Hidle : idle (Client.State 1 1 ∅ [wire 0 0 SYN_FLAG []])).
    { split_and!; try done. apply Forall_singleton. by left. }
    unfold Client.run_client. monad_simpl.
    change (Client.start Client.init)
      with (Ok Client.Handshake, Client.State 1 1 ∅ [wire 0 0 SYN_FLAG []]).
    cbn beta iota.
    destruct (client_steps_idle file_data window_size evs Client.Handshake _
                ltac:(lia) ltac:(done) Hidle) as (_ & _ & _ & _ & Hlog).
    eapply Forall_impl; [exact Hlog|]. intros p Hp. by left.
Qed.

(** ** Sender: leaving the transfer loop *)

Lemma retransmit_packets_base (file_data : bytes) (s : Client.state) :
  Client.base (Client.retransmit_packets file_data s).2 = Client.base s.
Proof.
  unfold Client.retransmit_packets.
  apply (for_each_inv (λ s', Client.base s' = Client.base s)); [|done].
  intros k s0 Hs0. monad_simpl. by destruct (create_packet _ _ _ _).
Qed.

Lemma transfer_loop_finishing (file_data : bytes) (window_size : Z)
    (s : Client.state) (ph : Client.phase) :
  (Client.transfer_loop file_data window_size s).1 = Ok ph →
  finishing ph = true →
  Client.total_packets file_data ≤ Client.base (Client.transfer_loop file_data window_size s).2.
Proof.
  destruct (Z.lt_ge_cases (Client.base s) (Client.total_packets file_data)) as [Hlt|Hge].
  - rewrite transfer_loop_round by assumption. monad_simpl.
    destruct (Client.send_window file_data window_size s) as [[[]|e1] s1];
      cbn [fst snd]; [|discriminate]. by intros [= <-].
  - rewrite transfer_loop_exit by assumption. cbn [fst snd Client.base]. lia.
Qed.

Lemma client_step_finishing (file_data : bytes) (window_size : Z)
    (ph ph' : Client.phase) (ev : event) (s : Client.state) :
  (finishing ph = true → Client.total_packets file_data ≤ Client.base s) →
  (Client.client_step file_data window_size ph ev s).1 = Ok ph' →
  finishing ph' = true →
  Client.total_packets file_data
    ≤ Client.base (Client.client_step file_data window_size ph ev s).2.
Proof.
  intros Hs.
  destruct ph, ev as [packet|]; cbn [Client.client_step]; monad_simpl;
    try (destruct (parse_packet packet) as [[[[? ?] flags] ?]|e1]; cbn beta iota;
         [|discriminate]).
  - destruct (is_flag_set flags _); cbn beta iota.
    + change (create_packet 0 0 ACK_FLAG []) with (Ok (wire 0 0 ACK_FLAG [])).
      unfold Client.send_packet. monad_simpl. apply transfer_loop_finishing.
    + apply transfer_loop_finishing.
  - cbn [fst snd]. by intros [= <-].
  - destruct (_ && _); cbn beta iota.
    + destruct (Client.slide_window _ s) as [[[]|e1] s1]; cbn beta iota;
        [|discriminate].
      destruct (Client.send_window file_data window_size s1) as [[[]|e2] s2];
        cbn [fst snd]; [|discriminate]. by intros [= <-].
    + cbn [fst snd]. by intros [= <-].
  - pose proof (retransmit_packets_base file_data s) as Hbase.
    destruct (Client.retransmit_packets file_data s) as [[[]|e1] s1];
      cbn [fst snd] in *; [|discriminate].
    apply transfer_loop_finishing.
  - destruct (is_flag_set flags _); cbn [fst snd]; intros _ _; by apply Hs.
  - change (create_packet 0 0 FIN_FLAG []) with (Ok (wire 0 0 FIN_FLAG [])).
    unfold Client.send_packet. monad_simpl. cbn [fst snd Client.base].
    intros _ _. by apply Hs.
  - cbn [fst snd]. intros _ _. by apply Hs.
  - cbn [fst snd]. intros _ _. by apply Hs.
  - cbn [fst snd]. by intros [= <-].
  - cbn [fst snd]. by intros [= <-].
Qed.

Lemma client_steps_finishing (file_data : bytes) (window_size : Z)
    (evs : list event) (ph ph' : Client.phase) (s : Client.state) :
  (finishing ph = true → Client.total_packets file_data ≤ Client.base s) →
  (Client.client_steps file_data window_size ph evs s).1 = Ok ph' →
  finishing ph' = true →
  Client.total_packets file_data
    ≤ Client.base (Client.client_steps file_data window_size ph evs s).2.
Proof.
  revert ph s. induction evs as [|ev evs IH]; intros ph s Hs.
  - cbn. intros [= <-]. exact Hs.
  - destruct (Client.terminal ph) eqn:Hterm.
    + rewrite client_steps_terminal by assumption. cbn. intros [= <-]. exact Hs.
    + rewrite client_steps_cons by assumption.
      pose proof (λ ph1, client_step_finishing file_data window_size ph ph1 ev s Hs)
        as Hstep.
      destruct (Client.client_step file_data window_size ph ev s) as [[ph1|e1] s1];
        cbn [fst snd] in *; [|discriminate].
      apply IH. intros Hfin. by apply (Hstep ph1).
Qed.

(** X14: the sender never starts the teardown early: whenever a run has
    reached the teardown (FIN sent) or has closed, whatever it received,
    [base] is at least [total_packets]. *)
Theorem teardown_only_after_acks (file_data : bytes) (window_size : Z)
    (evs : list event) (ph : Client.phase) :
  (Client.run_client file_data window_size evs).1 = Ok ph →
  finishing ph = true →
  Client.total_packets file_data
    ≤ Client.base (Client.run_client file_data window_size evs).2.
Proof.
  unfold Client.run_client. monad_simpl.
  change (Client.start Client.init)
    with (Ok Client.Handshake, Client.State 1 1 ∅ [wire 0 0 SYN_FLAG []]).
  cbn beta iota. apply client_steps_finishing. discriminate.
Qed.

Lemma teardown_only_after_acks_witness :
  let fd := replicate 2000 Byte.x00 in
  let evs := [Datagram (wire 0 0 3 []); Datagram (wire 0 2 ACK_FLAG []); Timeout] in
  Client.total_packets fd ≤ Client.base (Client.run_client fd 3 evs).2.
Proof.
  intros fd evs.
  apply (teardown_only_after_acks fd 3 evs Client.Teardown); reflexivity.
Defined.

(** ** Sender: a whole send round *)

Lemma send_window_cond_spec (file_data : bytes) (window_size : Z) (s : Client.state) :
  Client.send_window_cond file_data window_size s = true
  ↔ Client.next_seq s
    ≤ Z.min (Client.base s + window_size) (Client.total_packets file_data).
Proof.
  unfold Client.send_window_cond. rewrite andb_true_iff, !Z.leb_le. lia.
Qed.

Lemma send_window_loop_ok (file_data : bytes) (window_size : Z)
    (fuel : nat) (s : Client.state) :
  2 ≤ Client.next_seq s →
  Z.min (Client.base s + window_size) (Client.total_packets file_data) ≤ 65536 →
  (Z.to_nat (Z.min (Client.base s + window_size) (Client.total_packets file_data)
             + 1 - Client.next_seq s) ≤ fuel)%nat →
  ∃ w',
    while fuel (Client.send_window_cond file_data window_size)
      (Client.send_window_body file_data) s
    = (Ok (),
       Client.State (Client.base s)
         (Z.max (Client.next_seq s)
            (Z.min (Client.base s + window_size) (Client.total_packets file_data) + 1))
         w'
         (Client.sent s ++
            ((λ n, wire (n - 1) 0 0 (chunk file_data n))
               <$> seqZ (Client.next_seq s)
                     (Z.min (Client.base s + window_size)
                        (Client.total_packets file_data) + 1 - Client.next_seq s)))).
Proof.
  revert s. induction fuel as [|fuel IH]; intros s Hn Hm Hfuel.
  - exists (Client.window s). cbn [while]. monad_simpl.
    rewrite seqZ_nil by lia. rewrite Z.max_l by lia.
    cbn [fmap list_fmap]. rewrite app_nil_r. by destruct s.
  - rewrite while_unfold.
    destruct (Client.send_window_cond file_data window_size s) eqn:Hcond.
    + apply send_window_cond_spec in Hcond.
      rewrite send_window_body_ok by lia.
      destruct (IH (Client.State (Client.base s) (Client.next_seq s + 1)
                      ({[Client.next_seq s]} ∪ Client.window s)
                      (Client.sent s ++ [wire (Client.next_seq s - 1) 0 0
                                           (chunk file_data (Client.next_seq s))])))
        as [w' Hw']; cbn [Client.base Client.next_seq]; [lia..|].
      exists w'. rewrite Hw'. cbn [Client.base Client.next_seq Client.sent].
      f_equal. f_equal; [lia|].
      rewrite (seqZ_cons (Client.next_seq s)) by lia.
      cbn [fmap list_fmap]. rewrite <- app_assoc. cbn [app]. do 4 f_equal; lia.
    + exists (Client.window s).
      assert (¬ Client.next_seq s
                ≤ Z.min (Client.base s + window_size) (Client.total_packets file_data))
        as Hgt by (rewrite <- send_window_cond_spec; congruence).
      rewrite seqZ_nil by lia. rewrite Z.max_l by lia.
      cbn [fmap list_fmap]. rewrite app_nil_r. by destruct s.
Qed.

(** X15: what one send round sends.  From a state with [next_seq >= 2],
    with [m] the smaller of [base + window_size] and [total_packets] (and
    sequence numbers within 16 bits), [send_window] returns after sending
    exactly the packets of the sequence numbers [next_seq - 1, ..., m - 1],
    in ascending order, the packet of sequence [n - 1] with the chunk [n];
    [base] is unchanged and [next_seq] ends at [m + 1] (or stays if it was
    beyond). *)
Theorem send_round_sends (file_data : bytes) (window_size : Z) (s : Client.state) :
  2 ≤ Client.next_seq s →
  Z.min (Client.base s + window_size) (Client.total_packets file_data) ≤ 65536 →
  let m := Z.min (Client.base s + window_size) (Client.total_packets file_data) in
  ∃ w',
    Client.send_window file_data window_size s
    = (Ok (),
       Client.State (Client.base s) (Z.max (Client.next_seq s) (m + 1)) w'
         (Client.sent s ++
            ((λ n, wire (n - 1) 0 0 (chunk file_data n))
               <$> seqZ (Client.next_seq s) (m + 1 - Client.next_seq s)))).
Proof.
  intros Hn Hm m. unfold Client.send_window.
  apply send_window_loop_ok; [done|done|lia].
Qed.

Lemma send_round_sends_witness :
  let fd := replicate 5000 Byte.x00 in
  ∃ w',
    Client.send_window fd 3 (Client.State 2 3 {[2]} [])
    = (Ok (), Client.State 2 6 w'
                [wire 2 0 0 (chunk fd 3); wire 3 0 0 (chunk fd 4);
                 wire 4 0 0 (chunk fd 5)]).
Proof.
  intros fd.
  destruct (send_round_sends fd 3 (Client.State 2 3 {[2]} [])) as [w' Hw'];
    [cbn; lia | vm_compute; discriminate |].
  exists w'. exact Hw'.
Defined.

Lemma fmap_seqZ_shift {A} (f g : Z → A) (a b n : Z) :
  (∀ i, f (a + i) = g (b + i)) → f <$> seqZ a n = g <$> seqZ b n.
Proof.
  intros Hfg. unfold seqZ. rewrite <- !list_fmap_compose.
  apply list_fmap_ext. intros i k _. cbn.
  rewrite (Z.add_comm _ a), (Z.add_comm _ b). apply Hfg.
Qed.

Lemma send_window_body_first (file_data : bytes) (s : Client.state) :
  Client.next_seq s = 1 →
  Client.send_window_body file_data s
  = (Ok (), Client.State (Client.base s) 3 ({[2]} ∪ ({[1]} ∪ Client.window s))
              (Client.sent s ++ [wire 1 0 0 (chunk file_data 2)])).
Proof.
  intros Hone. unfold Client.send_window_body. monad_simpl. rewrite Hone.
  change (1 - 1 <? 1) with true. cbn beta iota.
  cbn [Client.add_next Client.next_seq]. rewrite Hone.
  change (1 + 1) with 2.
  rewrite create_packet_ok by lia. cbn beta iota.
  rewrite (py_slice_chunk file_data 2) by lia.
  unfold Client.send_packet. monad_simpl. unfold Client.add_next.
  cbn [Client.base Client.next_seq Client.window Client.sent].
  rewrite Hone. reflexivity.
Qed.

(** X16: the first send round.  With at least two segments and a window
    capacity of at least 1, the acknowledged handshake is followed at once
    by the data packets of the sequence numbers 1 to
    [min(window_size, total_packets - 1)], in order, the packet of sequence
    [k] with the chunk [k + 1]; the sender then waits for ACKs with
    [base = 1]. *)
Theorem first_round_sends (file_data : bytes) (window_size : Z) :
  2 ≤ Client.total_packets file_data → 1 ≤ window_size →
  Z.min (1 + window_size) (Client.total_packets file_data) ≤ 65536 →
  let m := Z.min (1 + window_size) (Client.total_packets file_data) in
  let r := Client.run_client file_data window_size
             [Datagram (wire 0 0 (Z.lor SYN_FLAG ACK_FLAG) [])] in
  r.1 = Ok Client.Wait ∧
  Client.base r.2 = 1 ∧ Client.next_seq r.2 = m + 1 ∧
  Client.sent r.2
  = [wire 0 0 SYN_FLAG []; wire 0 0 ACK_FLAG []]
    ++ ((λ k, wire k 0 0 (chunk file_data (k + 1))) <$> seqZ 1 (m - 1)).
Proof.
  intros Htot HW Hm m r. subst r.
  set (s0 := Client.State 1 1 ∅ [wire 0 0 SYN_FLAG []; wire 0 0 ACK_FLAG []]).
  assert (Hrun : Client.run_client file_data window_size
                   [Datagram (wire 0 0 (Z.lor SYN_FLAG ACK_FLAG) [])]
                 = (Client.send_window file_data window_size;; mret Client.Wait) s0).
  { unfold Client.run_client. monad_simpl.
    change (Client.start Client.init)
      with (Ok Client.Handshake, Client.State 1 1 ∅ [wire 0 0 SYN_FLAG []]).
    cbn beta iota. rewrite client_steps_cons by reflexivity.
    cbn [Client.client_step]. monad_simpl.
    change (parse_packet (wire 0 0 (Z.lor SYN_FLAG ACK_FLAG) []))
      with (Ok (0, 0, Z.lor SYN_FLAG ACK_FLAG, @nil Byte.byte)).
    cbn beta iota.
    change (is_flag_set (Z.lor SYN_FLAG ACK_FLAG) (Z.lor SYN_FLAG ACK_FLAG)) with true.
    cbn beta iota.
    change (create_packet 0 0 ACK_FLAG []) with (Ok (wire 0 0 ACK_FLAG [])).
    unfold Client.send_packet. monad_simpl.
    rewrite transfer_loop_round by (cbn; lia).
    monad_simpl. cbn [Client.base Client.next_seq Client.window Client.sent app].
    fold s0.
    by destruct (Client.send_window file_data window_size s0) as [[[]|e1] s1]. }
  rewrite Hrun. monad_simpl.
  unfold Client.send_window. change (Client.next_seq s0) with 1.
  destruct (Z.to_nat (Client.total_packets file_data + 1 - 1)) as [|fuel] eqn:Hfuel;
    [lia|].
  rewrite while_unfold.
  assert (Hcond : Client.send_window_cond file_data window_size s0 = true).
  { apply send_window_cond_spec. cbn. lia. }
  rewrite Hcond, send_window_body_first by reflexivity.
  destruct (send_window_loop_ok file_data window_size fuel
              (Client.State 1 3 ({[2]} ∪ ({[1]} ∪ ∅))
                 (Client.sent s0 ++ [wire 1 0 0 (chunk file_data 2)])))
    as [w' Hw']; cbn [Client.base Client.next_seq]; [lia..|].
  change (Client.base s0) with 1. change (Client.window s0) with (∅ : gset Z).
  rewrite Hw'. cbn [fst snd Client.base Client.next_seq Client.sent].
  fold m. split_and!; [done|done|lia|].
  rewrite <- app_assoc. f_equal.
  rewrite (seqZ_cons 1 (m - 1)) by lia. cbn [fmap list_fmap app]. f_equal.
  replace (Z.pred (m - 1)) with (m + 1 - 3) by lia.
  apply fmap_seqZ_shift. intros i. do 2 f_equal; lia.
Qed.

Lemma first_round_sends_witness :
  let fd := replicate 5000 Byte.x00 in
  let r := Client.run_client fd 3 [Datagram (wire 0 0 (Z.lor SYN_FLAG ACK_FLAG) [])] in
  r.1 = Ok Client.Wait ∧ Client.base r.2 = 1 ∧ Client.next_seq r.2 = 4 + 1.
Proof.
  intros fd r.
  destruct (first_round_sends fd 3) as (H1 & H2 & H3 & _);
    [vm_compute; discriminate | lia | vm_compute; discriminate |].
  split_and!; [exact H1 | exact H2 | exact H3].
Defined.

(** ** Sender: progress *)

Section sender_progress.

Variable file_data : bytes.
Variable window_size : Z.
Variable s : Client.state.

Local Abbreviation ahead := (advanced s).

Lemma send_packet_ahead (p : bytes) : preserves ahead (Client.send_packet p).
Proof.
  intros s0 (Hb & Hn & Hlog). split_and!; [done..|]. by apply prefix_app_r.
Qed.

Lemma add_next_ahead (s0 : Client.state) : ahead s0 → ahead (Client.add_next s0).
Proof.
  intros (Hb & Hn & Hlog).
  split_and!; cbn [Client.add_next Client.base Client.next_seq Client.sent];
    (done || lia).
Qed.

Lemma send_window_ahead : preserves ahead (Client.send_window file_data window_size).
Proof.
  intros s0 Hs0. unfold Client.send_window. apply while_inv; [|exact Hs0].
  clear. intros s0 Hs0 _. unfold Client.send_window_body. monad_simpl.
  destruct (_ <? 1); cbn beta iota;
    (destruct (create_packet _ 0 0 _); cbn beta iota;
     [apply add_next_ahead, send_packet_ahead|]);
    try apply add_next_ahead; done.
Qed.

Lemma slide_window_ahead (ack_num : Z) : preserves ahead (Client.slide_window ack_num).
Proof.
  intros s0 Hs0. unfold Client.slide_window. apply while_inv; [|exact Hs0].
  clear. intros s0 (Hb & Hn & Hlog) _. monad_simpl. unfold Client.window_remove_base.
  case_bool_decide; cbn [snd]; [|done].
  split_and!; cbn [Client.incr_base Client.base Client.next_seq Client.sent];
    (done || lia).
Qed.

Lemma retransmit_packets_ahead : preserves ahead (Client.retransmit_packets file_data).
Proof.
  intros s0 Hs0. unfold Client.retransmit_packets.
  apply (preserves_for_each ahead); [|exact Hs0].
  intros k. apply preserves_bind; [apply preserves_lift|apply send_packet_ahead].
Qed.

Ltac ahead_step :=
  first
    [ solve [auto with preserves]
    | apply send_packet_ahead | apply send_window_ahead
    | apply slide_window_ahead | apply retransmit_packets_ahead
    | apply preserves_bind; [|intros ?]
    | match goal with
      | a : (_ * _)%type |- _ => destruct a
      | |- preserves _ (if ?b then _ else _) => destruct b
      end ].

Lemma transfer_loop_ahead : preserves ahead (Client.transfer_loop file_data window_size).
Proof. unfold Client.transfer_loop. repeat ahead_step. Qed.

Lemma client_step_ahead (ph : Client.phase) (ev : event) :
  preserves ahead (Client.client_step file_data window_size ph ev).
Proof.
  destruct ph, ev as [packet|]; cbn [Client.client_step];
    repeat (apply transfer_loop_ahead || ahead_step).
Qed.

Lemma client_steps_ahead (ph : Client.phase) (evs : list event) :
  preserves ahead (Client.client_steps file_data window_size ph evs).
Proof.
  revert ph. induction evs as [|ev evs IH]; intros ph; cbn [Client.client_steps].
  - apply preserves_ret.
  - destruct (Client.terminal ph); [apply preserves_ret|].
    apply preserves_bind; [apply client_step_ahead | intros ph'; apply IH].
Qed.

End sender_progress.

(** X17: the sender never goes back: over any sequence of receive outcomes,
    from any state and phase, [base] and [next_seq] never decrease and the
    log of sent packets only grows at its end, also when the run ends with
    an exception.  In particular an acknowledgment never lowers [base]. *)
Theorem sender_never_goes_back (file_data : bytes) (window_size : Z)
    (ph : Client.phase) (evs : list event) (s : Client.state) :
  let s' := (Client.client_steps file_data window_size ph evs s).2 in
  Client.base s ≤ Client.base s' ∧
  Client.next_seq s ≤ Client.next_seq s' ∧
  Client.sent s `prefix_of` Client.sent s'.
Proof.
  intros s'. subst s'. apply (client_steps_ahead file_data window_size s ph evs).
  by split_and!.
Qed.

(** ** Sender: the window and the wire *)

Lemma data_seqs_snoc (log : list bytes) (p : bytes) :
  data_seqs (log ++ [p]) = data_seqs log ++ data_seqs [p].
Proof. apply omap_app. Qed.

Lemma data_seqs_data (k : Z) (data : bytes) :
  0 ≤ k ≤ 65535 → data_seqs [wire k 0 0 data] = [k].
Proof.
  intros Hk. unfold data_seqs. cbn [omap list_omap].
  by rewrite parse_packet_header by lia.
Qed.

Lemma data_seqs_control (p : bytes) : control_packet p → data_seqs [p] = [].
Proof. by intros [->|[->| ->]]. Qed.

Section sender_wire.

Variable file_data : bytes.
Variable window_size : Z.
Hypothesis window_positive : 1 ≤ window_size.

Local Abbreviation on_wire := (transmitted_inv window_size).

Lemma on_wire_control (p : bytes) (s : Client.state) :
  control_packet p → on_wire s → on_wire (Client.send_packet p s).2.
Proof.
  intros Hp [Hinv Hwire]. split; [exact Hinv|]. intros k.
  cbn [Client.send_packet modify snd Client.sent Client.next_seq].
  rewrite data_seqs_snoc, data_seqs_control, app_nil_r by assumption. apply Hwire.
Qed.

(** Sending the data packet of a number that is, or now becomes, one of
    those below [next_seq - 1]. *)
Lemma on_wire_data (k : Z) (data : bytes) (s : Client.state) (n : Z) :
  0 ≤ k ≤ 65535 →
  (∀ j, j ∈ data_seqs (Client.sent s) ∨ j = k ↔ 1 ≤ j < n - 1) →
  ∀ j, j ∈ data_seqs (Client.sent s ++ [wire k 0 0 data]) ↔ 1 ≤ j < n - 1.
Proof.
  intros Hk Hwire j. rewrite data_seqs_snoc, data_seqs_data by assumption.
  rewrite elem_of_app, list_elem_of_singleton. apply Hwire.
Qed.

Lemma send_window_body_on_wire (s : Client.state) :
  on_wire s →
  Client.send_window_cond file_data window_size s = true →
  on_wire (Client.send_window_body file_data s).2.
Proof.
  intros [Hinv Hwire] Hcond.
  pose proof (send_window_body_inv file_data window_size s window_positive Hinv Hcond)
    as Hinv'.
  split; [exact Hinv'|]. clear Hinv'.
  destruct Hinv as (Hb & Hle & _). revert Hwire.
  unfold Client.send_window_body. monad_simpl.
  destruct (Z.ltb_spec (Client.next_seq s - 1) 1) as [Hskip|Hskip]; cbn beta iota;
    intros Hwire.
  - assert (Hone : Client.next_seq s = 1) by lia.
    destruct (create_packet _ 0 0 _) as [p|e1] eqn:Hp; cbn beta iota.
    + apply create_packet_Ok in Hp as (-> & Hk & _).
      cbn [Client.send_packet modify snd Client.add_next Client.next_seq Client.sent]
        in *.
      apply on_wire_data; [exact Hk|]. intros j. rewrite Hwire. lia.
    + cbn [snd Client.add_next Client.next_seq Client.sent]. intros j.
      rewrite Hwire. lia.
  - destruct (create_packet _ 0 0 _) as [p|e1] eqn:Hp; cbn beta iota; [|exact Hwire].
    apply create_packet_Ok in Hp as (-> & Hk & _).
    cbn [Client.send_packet modify snd Client.add_next Client.next_seq Client.sent].
    apply on_wire_data; [exact Hk|]. intros j. rewrite Hwire. lia.
Qed.

Lemma send_window_on_wire : preserves on_wire (Client.send_window file_data window_size).
Proof.
  intros s Hs. unfold Client.send_window. apply while_inv; [|exact Hs].
  intros. by apply send_window_body_on_wire.
Qed.

Lemma slide_window_on_wire (ack_num : Z) :
  preserves on_wire (Client.slide_window ack_num).
Proof.
  intros s [Hinv Hwire].
  pose proof (slide_window_inv window_size ack_num s Hinv) as Hinv'.
  pose proof (slide_window_keeps ack_num s) as [Hsent Hnext].
  split; [exact Hinv'|]. intros k. rewrite Hsent, Hnext. apply Hwire.
Qed.

Lemma retransmit_packets_on_wire :
  preserves on_wire (Client.retransmit_packets file_data).
Proof.
  intros s [Hinv Hwire].
  pose proof (retransmit_packets_inv file_data window_size s Hinv) as Hinv'.
  split; [exact Hinv'|]. clear Hinv'. destruct Hinv as (Hb & _).
  unfold Client.retransmit_packets.
  apply (for_each_inv_Forall
           (λ s', Client.next_seq s' = Client.next_seq s ∧
                  ∀ j, j ∈ data_seqs (Client.sent s') ↔ 1 ≤ j < Client.next_seq s' - 1)
           (λ k, 1 ≤ k < Client.next_seq s - 1));
    [| apply Forall_seqZ; intros k Hk; lia | by split].
  clear Hwire. intros k s0 Hk [Hnext Hwire]. monad_simpl.
  destruct (create_packet k 0 0 _) as [p|e1] eqn:Hp; cbn beta iota; [|by split].
  apply create_packet_Ok in Hp as (-> & Hk16 & _).
  cbn [Client.send_packet modify snd Client.next_seq Client.sent].
  split; [exact Hnext|].
  apply on_wire_data; [exact Hk16|]. intros j. rewrite Hwire, Hnext. lia.
Qed.

Lemma send_control_on_wire {A} (flags : Z) (k : M Client.state A) :
  flags = SYN_FLAG ∨ flags = ACK_FLAG ∨ flags = FIN_FLAG →
  preserves on_wire k →
  preserves on_wire (p ← lift (create_packet 0 0 flags []); Client.send_packet p;; k).
Proof.
  intros Hflags Hk. apply preserves_lift_bind. intros p Hp.
  apply create_packet_Ok in Hp as (-> & _).
  apply preserves_bind; [|by intros []].
  intros s Hs. apply on_wire_control; [|done].
  destruct Hflags as [->|[->| ->]]; [by left | right; by left | right; by right].
Qed.

Lemma transfer_loop_on_wire :
  preserves on_wire (Client.transfer_loop file_data window_size).
Proof.
  unfold Client.transfer_loop. apply preserves_bind; [apply preserves_gets|].
  intros b. destruct (b <? _).
  - apply preserves_bind; [apply send_window_on_wire|intros; apply preserves_ret].
  - apply send_control_on_wire; [auto|apply preserves_ret].
Qed.

Lemma client_step_on_wire (ph : Client.phase) (ev : event) :
  preserves on_wire (Client.client_step file_data window_size ph ev).
Proof.
  destruct ph, ev as [packet|]; cbn [Client.client_step];
    try apply preserves_ret;
    try (apply preserves_bind; [apply preserves_lift|intros [[[? ?] flags] ?]]).
  - apply preserves_bind; [|intros; apply transfer_loop_on_wire].
    destruct (is_flag_set _ _); [|apply preserves_ret].
    apply preserves_lift_bind. intros p Hp.
    apply create_packet_Ok in Hp as (-> & _).
    intros s Hs. apply on_wire_control; [right; by left|done].
  - apply preserves_bind; [apply preserves_gets|intros b].
    apply preserves_bind; [|intros; apply preserves_ret].
    destruct (_ && _); [|apply preserves_ret].
    apply preserves_bind; [apply slide_window_on_wire|intros; apply send_window_on_wire].
  - apply preserves_bind;
      [apply retransmit_packets_on_wire|intros; apply transfer_loop_on_wire].
  - destruct (is_flag_set _ _); apply preserves_ret.
  - apply send_control_on_wire; [auto|apply preserves_ret].
Qed.

Lemma client_steps_on_wire (ph : Client.phase) (evs : list event) :
  preserves on_wire (Client.client_steps file_data window_size ph evs).
Proof.
  revert ph. induction evs as [|ev evs IH]; intros ph; cbn [Client.client_steps].
  - apply preserves_ret.
  - destruct (Client.terminal ph); [apply preserves_ret|].
    apply preserves_bind; [apply client_step_on_wire | intros ph'; apply IH].
Qed.

Lemma run_client_on_wire (evs : list event) :
  on_wire (Client.run_client file_data window_size evs).2.
Proof.
  unfold Client.run_client.
  apply (preserves_bind on_wire); [|intros ph; apply client_steps_on_wire|].
  - unfold Client.start. apply send_control_on_wire; [auto|apply preserves_ret].
  - split; [by apply init_window_inv|]. intros k. cbn.
    rewrite elem_of_nil. lia.
Qed.

End sender_wire.

(** C3, as the code has it: with a window capacity of at least 1, after
    every receive of the sender, whatever it received and also when it
    raised, [base <= next_seq] and [next_seq - base <= window_size + 1].
    The set [window] is exactly the integers from [base] up to [next_seq],
    so it holds at most [window_size + 1] of them.  The data packets in the
    log of sent packets carry exactly the sequence numbers from 1 up to
    [next_seq - 1]; those of them that are not below [base], the numbers
    transmitted and not yet acknowledged, are exactly the integers from
    [base] up to [next_seq - 1], at most [window_size] of them. *)
Theorem window_bound (file_data : bytes) (window_size : Z) (evs : list event) :
  1 ≤ window_size →
  let s := (Client.run_client file_data window_size evs).2 in
  let unacked : gset Z :=
    list_to_set (filter (λ k, Client.base s ≤ k) (data_seqs (Client.sent s))) in
  Client.base s ≤ Client.next_seq s ∧
  Client.next_seq s - Client.base s ≤ window_size + 1 ∧
  Client.window s = list_to_set (seqZ (Client.base s) (Client.next_seq s - Client.base s)) ∧
  Z.of_nat (size (Client.window s)) ≤ window_size + 1 ∧
  Client.next_seq s - 1 - Client.base s ≤ window_size ∧
  (∀ k, k ∈ data_seqs (Client.sent s) ↔ 1 ≤ k < Client.next_seq s - 1) ∧
  unacked = list_to_set (seqZ (Client.base s) (Client.next_seq s - 1 - Client.base s)) ∧
  Z.of_nat (size unacked) ≤ window_size.
Proof.
  intros HW s unacked.
  pose proof (run_client_on_wire file_data window_size HW evs) as [Hinv Hwire].
  fold s in Hinv, Hwire. pose proof (window_inv_elements _ _ Hinv) as Hset.
  destruct Hinv as (Hb & Hle & Hup & Hw).
  assert (Hun : unacked
                = list_to_set (seqZ (Client.base s) (Client.next_seq s - 1 - Client.base s))).
  { apply set_eq. intros k. subst unacked.
    rewrite !elem_of_list_to_set, list_elem_of_filter, Hwire, elem_of_seqZ. lia. }
  split_and!; try lia; [exact Hset | | exact Hwire | exact Hun |].
  - rewrite Hset, size_list_to_set by apply NoDup_seqZ. rewrite length_seqZ. lia.
  - rewrite Hun, size_list_to_set by apply NoDup_seqZ. rewrite length_seqZ. lia.
Qed.

Lemma window_bound_witness :
  let fd := replicate 3000 Byte.x00 in
  let s := (Client.run_client fd 3 [Datagram (wire 0 0 3 [])]).2 in
  let unacked : gset Z :=
    list_to_set (filter (λ k, Client.base s ≤ k) (data_seqs (Client.sent s))) in
  Client.base s = 1 ∧ Client.next_seq s = 5 ∧
  data_seqs (Client.sent s) = [1; 2; 3] ∧
  Client.next_seq s - Client.base s ≤ 3 + 1 ∧
  Z.of_nat (size unacked) ≤ 3.
Proof.
  intros fd s unacked.
  pose proof (window_bound fd 3 [Datagram (wire 0 0 3 [])]) as H.
  destruct H as (_ & H2 & _ & _ & _ & _ & _ & H8); [lia|].
  split_and!; [vm_compute; reflexivity.. | exact H2 | exact H8].
Defined.
